(** * WiFiContext: device discovery and colour streaming

    A shallow embedding of [src/client/context/WiFiContext.tsx] (the
    [WiFiProvider] component) and the properties of its wire protocol,
    discovery registry and connection handling.

    Conventions of the embedding:
    - JavaScript strings are [string]s; the only characters any function
      below inspects are ASCII, and a character above 127 never
      canonicalises to an ASCII one, so an 8-bit character type loses
      nothing for the pattern used here.
    - JavaScript numbers that the code keeps integral are [Z]; the one place
      where [NaN] can be produced ([parseInt]) returns a [jsnum].
    - A [Buffer] is a [list Z] of bytes.
    - React state and refs are fields of one record [State]; socket handles,
      timers and the datagrams handed to the network live next to them, so
      that what the closures of the component keep alive is visible. *)

From Stdlib Require Import ZArith String Ascii Bool Lia.
From stdpp Require Import base option list numbers strings sorting.

Local Open Scope Z_scope.

(** ** JavaScript values and operators *)

Module JS.

Inductive jsnum : Type :=
| Num (z : Z)
| NaN.

(** ECMAScript [ToInt32]: reduction modulo 2^32 into the signed range. *)
Definition ToInt32 (z : Z) : Z :=
  (z + 2 ^ 31) `mod` 2 ^ 32 - 2 ^ 31.

(** The binary [&] operator on integral numbers. *)
Definition bitand (a b : Z) : Z :=
  Z.land (ToInt32 a) (ToInt32 b).

Definition chars (s : string) : list ascii := list_ascii_of_string s.

Definition code (c : ascii) : N := N_of_ascii c.

Definition in_range (lo hi c : ascii) : bool :=
  (code lo <=? code c)%N && (code c <=? code hi)%N.

(** [parseInt(string, radix)] *)

Definition is_white (c : ascii) : bool :=
  existsb (N.eqb (code c)) [9; 10; 11; 12; 13; 32]%N.

Fixpoint trim_start (l : list ascii) : list ascii :=
  match l with
  | c :: l' => if is_white c then trim_start l' else l
  | [] => []
  end.

Definition digit_value (c : ascii) : option Z :=
  if in_range "0" "9" c then Some (Z.of_N (code c) - 48)
  else if in_range "a" "z" c then Some (Z.of_N (code c) - 97 + 10)
  else if in_range "A" "Z" c then Some (Z.of_N (code c) - 65 + 10)
  else None.

(** The longest prefix of digits of the radix, read most significant digit
    first; [acc] is [None] until a digit has been read. *)
Fixpoint parse_digits (radix : Z) (l : list ascii) (acc : option Z) : option Z :=
  match l with
  | [] => acc
  | c :: l' =>
      match digit_value c with
      | Some d =>
          if d <? radix
          then parse_digits radix l' (Some (default 0 acc * radix + d))
          else acc
      | None => acc
      end
  end.

(** A leading sign, and what follows it. *)
Definition take_sign (l : list ascii) : Z * list ascii :=
  match l with
  | c :: l' =>
      if Ascii.eqb c "-" then (-1, l')
      else if Ascii.eqb c "+" then (1, l')
      else (1, l)
  | [] => (1, [])
  end.

(** A leading [0x] or [0X]. *)
Definition has_hex_prefix (l : list ascii) : bool :=
  match l with
  | c0 :: c1 :: _ => Ascii.eqb c0 "0" && (Ascii.eqb c1 "x" || Ascii.eqb c1 "X")
  | _ => false
  end.

Definition parseInt (s : string) (radix : Z) : jsnum :=
  let '(sign, l) := take_sign (trim_start (chars s)) in
  let number (r : Z) (l : list ascii) :=
    from_option (fun v => Num (sign * v)) NaN (parse_digits r l None) in
  if radix =? 0 then
    if has_hex_prefix l then number 16 (drop 2 l) else number 10 l
  else if (radix <? 2) || (36 <? radix) then NaN
  else if (radix =? 16) && has_hex_prefix l then number 16 (drop 2 l)
  else number radix l.

(** *** Regular expressions

    A backtracking matcher in continuation-passing style, as the language
    definition gives it, for the fragment the component uses: assertions
    [^] and [$], literal characters, character classes, the greedy [?],
    bounded repetition by unfolding, and numbered capture groups. *)

Inductive regex : Type :=
| RStart
| REnd
| RChar (c : ascii)
| RClass (ranges : list (ascii * ascii))
| RSeq (r1 r2 : regex)
| ROpt (r : regex)
| RGroup (n : nat) (r : regex).

(** [r{2}] *)
Definition RTwice (r : regex) : regex := RSeq r r.

Record mstate : Type := MState {
  endIndex : nat;
  captures : list (option string)
}.

(** Canonicalisation under the [i] flag (without [u]): upper-casing. *)
Definition canonicalize (ignoreCase : bool) (c : ascii) : ascii :=
  if ignoreCase && in_range "a" "z" c
  then ascii_of_N (code c - 32)
  else c.

Definition eqb_canon (ignoreCase : bool) (a b : ascii) : bool :=
  Ascii.eqb (canonicalize ignoreCase a) (canonicalize ignoreCase b).

(** The members of a class range, from [lo] up to [hi]. *)
Definition range_members (lo hi : ascii) : list ascii :=
  map (fun k => ascii_of_N (code lo + N.of_nat k))
      (seq 0 (N.to_nat (N.succ (code hi) - code lo))).

Definition class_members (ranges : list (ascii * ascii)) : list ascii :=
  flat_map (fun r => range_members (fst r) (snd r)) ranges.

Definition class_matches (ignoreCase : bool) (ranges : list (ascii * ascii))
    (c : ascii) : bool :=
  existsb (fun m => eqb_canon ignoreCase m c) (class_members ranges).

Definition substring (from to : nat) (input : list ascii) : string :=
  string_of_list_ascii (take (to - from) (drop from input)).

Fixpoint rmatch (ignoreCase : bool) (input : list ascii) (r : regex)
    (x : mstate) (k : mstate -> option mstate) : option mstate :=
  match r with
  | RStart => if Nat.eqb (endIndex x) 0 then k x else None
  | REnd => if Nat.eqb (endIndex x) (length input) then k x else None
  | RChar c =>
      match input !! endIndex x with
      | Some ch =>
          if eqb_canon ignoreCase c ch
          then k (MState (S (endIndex x)) (captures x))
          else None
      | None => None
      end
  | RClass ranges =>
      match input !! endIndex x with
      | Some ch =>
          if class_matches ignoreCase ranges ch
          then k (MState (S (endIndex x)) (captures x))
          else None
      | None => None
      end
  | RSeq r1 r2 =>
      rmatch ignoreCase input r1 x
        (fun y => rmatch ignoreCase input r2 y k)
  | ROpt r' =>
      match rmatch ignoreCase input r' x k with
      | Some z => Some z
      | None => k x
      end
  | RGroup n r' =>
      rmatch ignoreCase input r' x
        (fun y =>
           k (MState (endIndex y)
                (<[n := Some (substring (endIndex x) (endIndex y) input)]>
                   (captures y))))
  end.

Fixpoint group_count (r : regex) : nat :=
  match r with
  | RSeq r1 r2 => group_count r1 + group_count r2
  | ROpt r' => group_count r'
  | RGroup _ r' => S (group_count r')
  | _ => 0
  end.

(** [RegExp.prototype.exec] for a pattern without the [g] and [y] flags:
    the match is tried at each start index in turn; the result array holds
    the matched text at index 0 and the captures from index 1. *)
Fixpoint exec_from (ignoreCase : bool) (r : regex) (input : list ascii)
    (start fuel : nat) : option (list (option string)) :=
  match rmatch ignoreCase input r
          (MState start (replicate (S (group_count r)) None)) Some with
  | Some y =>
      Some (<[0%nat := Some (substring start (endIndex y) input)]> (captures y))
  | None =>
      match fuel with
      | O => None
      | S fuel' => exec_from ignoreCase r input (S start) fuel'
      end
  end.

Definition exec (ignoreCase : bool) (r : regex) (s : string)
    : option (list (option string)) :=
  exec_from ignoreCase r (chars s) 0 (length (chars s)).

(** [ToString] of an array element that may be [undefined]. *)
Definition to_string (v : option (option string)) : string :=
  match v with
  | Some (Some s) => s
  | _ => "undefined"
  end.

End JS.

(** ** Node's [Buffer] *)

Module Buffer.

Definition t : Type := list Z.

(** [ToUint8] of an array element. *)
Definition byte_of (v : JS.jsnum) : Z :=
  match v with
  | JS.Num z => z `mod` 256
  | JS.NaN => 0
  end.

(** [Buffer.from(array)] *)
Definition from (l : list JS.jsnum) : t := map byte_of l.

(** [Buffer.from(string)] for ASCII text. *)
Definition from_string (s : string) : t :=
  map (fun c => Z.of_N (JS.code c)) (JS.chars s).

(** [Buffer.allocUnsafe(n)]: [n] bytes of whatever the memory held. *)
Definition allocUnsafe (n : nat) (heap : nat -> Z) : t :=
  map heap (seq 0 n).

(** The writers raise a [RangeError] ([None]) on a value or an offset out
    of range. *)
Definition writeUInt8 (value : Z) (offset : nat) (b : t) : option t :=
  if (0 <=? value) && (value <=? 255) && Nat.ltb offset (length b)
  then Some (<[offset := value]> b)
  else None.

Definition writeUInt16BE (value : Z) (offset : nat) (b : t) : option t :=
  if (0 <=? value) && (value <=? 65535) && Nat.ltb (S offset) (length b)
  then Some (<[S offset := Z.land value 255]>
               (<[offset := Z.shiftr value 8]> b))
  else None.

Definition concat (l : list t) : t := List.concat l.

End Buffer.

(** ** The component *)

Module WiFi.

Import JS.

Record WiFiDevice : Type := mkDevice {
  id : string;
  name : string;
  ipAddress : string;
  port : Z;
  rssi : option Z;
  isConnected : bool
}.

Definition ESP_UDP_PORT : Z := 7777.
Definition BROADCAST_PORT : Z := 7778.

Definition MOCK_DEVICES : list WiFiDevice :=
  [ mkDevice "mock-1" "ESP LED Test (Mock)" "192.168.1.100"
      ESP_UDP_PORT (Some (-45)) false;
    mkDevice "mock-2" "ESP LED Living Room (Mock)" "192.168.1.101"
      ESP_UDP_PORT (Some (-62)) false ].

(** [Platform.OS] *)
Inductive PlatformOS : Type := web | android | ios.

Definition is_web (os : PlatformOS) : bool :=
  match os with web => true | _ => false end.

(** What the component reads from its surroundings: the platform, whether
    [require('react-native-udp')] yields a module with [createSocket],
    whether the location permissions are granted, the wall clock at logical
    time zero, and the contents of freshly allocated buffers. *)
Record Env : Type := mkEnv {
  OS : PlatformOS;
  udpModule : bool;
  permissionsGranted : bool;
  epoch : Z;
  heap : nat -> Z
}.

(** A callback the runtime still holds: the body of a [setTimeout] or
    [setInterval], or the callback given to [socket.bind]. The arguments
    are the variables the closure captured. *)
Inductive Task : Type :=
| MockLoad
| ScanBound (socket : nat)
| SendDiscovery (socket : nat)
| ScanTimeout (interval socket : nat)
| ConnectBound (socket : nat) (device : WiFiDevice).

Record Timer : Type := mkTimer {
  timerId : nat;
  due : Z;
  period : option Z;
  task : Task
}.

(** How a call of [socket.send] ends: the datagram leaves, the completion
    callback receives an error, or the call itself throws. *)
Inductive SendOutcome : Type := Delivered | CallbackError | Throws.

(** One call of [socket.send]. *)
Record Datagram : Type := mkDatagram {
  dgSocket : nat;
  dgBytes : Buffer.t;
  dgPort : Z;
  dgAddress : string;
  dgOutcome : SendOutcome
}.

(** A socket handle: whether it is open, and whether the discovery
    ['message'] listener is attached to it. *)
Record Socket : Type := mkSocket {
  isOpen : bool;
  listening : bool
}.

Record State : Type := mkState {
  (* useState / useRef *)
  devices : list WiFiDevice;
  connectedDevice : option WiFiDevice;
  isScanning : bool;
  udpSocket : option nat;
  seqRef : Z;
  lastRegionsRef : list string;
  (* runtime: socket handles, clock, callbacks, calls of socket.send *)
  sockets : list Socket;
  clock : Z;
  pending : list Timer;
  nextTimer : nat;
  sent : list Datagram
}.

(** The state of a freshly mounted provider. *)
Definition initial : State :=
  mkState [] None false None 0
    [EmptyString; EmptyString; EmptyString; EmptyString]
    [] 0 [] 0 [].

(** *** State setters *)

Definition setDevices (f : list WiFiDevice -> list WiFiDevice) (st : State)
    : State :=
  mkState (f (devices st)) (connectedDevice st) (isScanning st) (udpSocket st)
    (seqRef st) (lastRegionsRef st) (sockets st) (clock st) (pending st)
    (nextTimer st) (sent st).

Definition setConnectedDevice (d : option WiFiDevice) (st : State) : State :=
  mkState (devices st) d (isScanning st) (udpSocket st)
    (seqRef st) (lastRegionsRef st) (sockets st) (clock st) (pending st)
    (nextTimer st) (sent st).

Definition setIsScanning (b : bool) (st : State) : State :=
  mkState (devices st) (connectedDevice st) b (udpSocket st)
    (seqRef st) (lastRegionsRef st) (sockets st) (clock st) (pending st)
    (nextTimer st) (sent st).

Definition setUdpSocket (s : option nat) (st : State) : State :=
  mkState (devices st) (connectedDevice st) (isScanning st) s
    (seqRef st) (lastRegionsRef st) (sockets st) (clock st) (pending st)
    (nextTimer st) (sent st).

Definition setSeqRef (n : Z) (st : State) : State :=
  mkState (devices st) (connectedDevice st) (isScanning st) (udpSocket st)
    n (lastRegionsRef st) (sockets st) (clock st) (pending st)
    (nextTimer st) (sent st).

Definition setLastRegionsRef (l : list string) (st : State) : State :=
  mkState (devices st) (connectedDevice st) (isScanning st) (udpSocket st)
    (seqRef st) l (sockets st) (clock st) (pending st)
    (nextTimer st) (sent st).

Definition setSockets (l : list Socket) (st : State) : State :=
  mkState (devices st) (connectedDevice st) (isScanning st) (udpSocket st)
    (seqRef st) (lastRegionsRef st) l (clock st) (pending st)
    (nextTimer st) (sent st).

Definition setClock (t : Z) (st : State) : State :=
  mkState (devices st) (connectedDevice st) (isScanning st) (udpSocket st)
    (seqRef st) (lastRegionsRef st) (sockets st) t (pending st)
    (nextTimer st) (sent st).

Definition setPending (l : list Timer) (st : State) : State :=
  mkState (devices st) (connectedDevice st) (isScanning st) (udpSocket st)
    (seqRef st) (lastRegionsRef st) (sockets st) (clock st) l
    (nextTimer st) (sent st).

Definition setNextTimer (n : nat) (st : State) : State :=
  mkState (devices st) (connectedDevice st) (isScanning st) (udpSocket st)
    (seqRef st) (lastRegionsRef st) (sockets st) (clock st) (pending st)
    n (sent st).

Definition setSent (l : list Datagram) (st : State) : State :=
  mkState (devices st) (connectedDevice st) (isScanning st) (udpSocket st)
    (seqRef st) (lastRegionsRef st) (sockets st) (clock st) (pending st)
    (nextTimer st) l.

(** *** Runtime services *)

(** [dgram.createSocket('udp4')]: a fresh open handle. *)
Definition createSocket (st : State) : nat * State :=
  (length (sockets st), setSockets (sockets st ++ [mkSocket true false]) st).

(** [socket.close()] *)
Definition closeSocket (s : nat) (st : State) : State :=
  setSockets (alter (fun k => mkSocket false (listening k)) s (sockets st)) st.

(** [socket.on('message', ...)] *)
Definition listen (s : nat) (st : State) : State :=
  setSockets (alter (fun k => mkSocket (isOpen k) true) s (sockets st)) st.

Definition socketOpen (s : nat) (st : State) : bool :=
  from_option isOpen false (sockets st !! s).

Definition socketListening (s : nat) (st : State) : bool :=
  from_option (fun k => isOpen k && listening k) false (sockets st !! s).

(** [socket.send(buffer, 0, buffer.length, port, address, callback)]; the
    callback of every call in the component only logs. *)
Definition socketSend (s : nat) (bytes : Buffer.t) (p : Z) (address : string)
    (outcome : SendOutcome) (st : State) : State :=
  setSent (sent st ++ [mkDatagram s bytes p address outcome]) st.

(** [setTimeout] / [setInterval] / a bind callback: the callback is queued
    and its handle returned. *)
Definition schedule (delay : Z) (per : option Z) (k : Task) (st : State)
    : nat * State :=
  (nextTimer st,
   setNextTimer (S (nextTimer st))
     (setPending (pending st ++ [mkTimer (nextTimer st) (clock st + delay) per k])
        st)).

Definition setTimeout (k : Task) (delay : Z) (st : State) : nat * State :=
  schedule delay None k st.

Definition setInterval (k : Task) (delay : Z) (st : State) : nat * State :=
  schedule delay (Some delay) k st.

Definition clearInterval (h : nat) (st : State) : State :=
  setPending (filter (fun t => timerId t ≠ h) (pending st)) st.

(** *** hexToRgbBytes *)

(** [/^#?([a-f\d]{2})([a-f\d]{2})([a-f\d]{2})$/i] *)
Definition hexByte : regex :=
  RTwice (RClass [("a"%char, "f"%char); ("0"%char, "9"%char)]).

Definition HEX_RE : regex :=
  RSeq RStart
    (RSeq (ROpt (RChar "#"))
       (RSeq (RGroup 1 hexByte)
          (RSeq (RGroup 2 hexByte)
             (RSeq (RGroup 3 hexByte) REnd)))).

Definition hexToRgbBytes (hex : string) : list jsnum :=
  match exec true HEX_RE hex with
  | None => [Num 0; Num 0; Num 0]
  | Some result =>
      [ parseInt (to_string (result !! 1%nat)) 16;
        parseInt (to_string (result !! 2%nat)) 16;
        parseInt (to_string (result !! 3%nat)) 16 ]
  end.

(** *** Discovery *)

(** [requestWiFiPermissions] *)
Definition requestWiFiPermissions (env : Env) : bool :=
  match OS env with
  | android => permissionsGranted env
  | _ => true
  end.

Definition DISCOVERY_MESSAGE : string := "ESP_LED_DISCOVERY".

(** [sendDiscovery], the closure of the bind callback of [startScan]. *)
Definition sendDiscovery (socket : nat) (st : State) : State :=
  socketSend socket (Buffer.from_string DISCOVERY_MESSAGE) BROADCAST_PORT
    "255.255.255.255" Delivered st.

Definition mockScan (st : State) : State :=
  let st := setIsScanning true st in
  let st := setDevices (fun _ => []) st in
  snd (setTimeout MockLoad 1500 st).

Definition startScan (env : Env) (st : State) : State :=
  if is_web (OS env) then mockScan st
  else if negb (udpModule env) then mockScan st
  else if negb (requestWiFiPermissions env) then st
  else
    let st := setIsScanning true st in
    let st := setDevices (fun _ => []) st in
    let '(socket, st) := createSocket st in
    let st := snd (schedule 0 None (ScanBound socket) st) in
    listen socket st.

Definition stopScan (st : State) : State :=
  setIsScanning false st.

(** The parsed discovery response: the fields the handler reads, each
    absent ([None]) or present. *)
Record Response : Type := mkResponse {
  r_type : option string;
  r_id : option string;
  r_name : option string;
  r_port : option Z;
  r_rssi : option Z
}.

(** [a || b] on a string and on a number that may be [undefined]. *)
Definition or_string (a : option string) (b : string) : string :=
  match a with
  | Some s => if String.eqb s EmptyString then b else s
  | None => b
  end.

Definition or_number (a : option Z) (b : Z) : Z :=
  match a with
  | Some n => if n =? 0 then b else n
  | None => b
  end.

(** [prev.findIndex(pred)]: the first index, or -1. *)
Fixpoint findIndex {A} (pred : A -> bool) (l : list A) : Z :=
  match l with
  | [] => -1
  | x :: l' =>
      if pred x then 0
      else let i := findIndex pred l' in if i <? 0 then -1 else i + 1
  end.

Definition withRssi (d : WiFiDevice) (r : option Z) : WiFiDevice :=
  mkDevice (id d) (name d) (ipAddress d) (port d) r (isConnected d).

Definition withConnected (d : WiFiDevice) (b : bool) : WiFiDevice :=
  mkDevice (id d) (name d) (ipAddress d) (port d) (rssi d) b.

(** The updater given to [setDevices] by the message handler. *)
Definition registerDevice (newDevice : WiFiDevice) (prev : list WiFiDevice)
    : list WiFiDevice :=
  let existingIndex :=
    findIndex (fun d => String.eqb (ipAddress d) (ipAddress newDevice)) prev in
  if 0 <=? existingIndex then
    match prev !! Z.to_nat existingIndex with
    | Some old => <[Z.to_nat existingIndex := withRssi old (rssi newDevice)]> prev
    | None => prev
    end
  else prev ++ [newDevice].

Definition deviceOfResponse (response : Response) (address : string) : WiFiDevice :=
  mkDevice (or_string (r_id response) address)
    (or_string (r_name response) ("ESP LED (" ++ address ++ ")")%string)
    address
    (or_number (r_port response) ESP_UDP_PORT)
    (r_rssi response)
    false.

(** [socket.on('message', ...)] of [startScan]; [None] is a message that
    [JSON.parse] rejects or that is not an object. *)
Definition onMessage (msg : option Response) (address : string) (st : State) : State :=
  match msg with
  | None => st
  | Some response =>
      if bool_decide (r_type response = Some "ESP_LED_DEVICE"%string)
      then setDevices (registerDevice (deviceOfResponse response address)) st
      else st
  end.

(** *** Connection *)

Definition markConnected (device updatedDevice : WiFiDevice)
    (prev : list WiFiDevice) : list WiFiDevice :=
  map (fun d => if String.eqb (id d) (id device) then updatedDevice
                else withConnected d false) prev.

Definition connectDevice (env : Env) (device : WiFiDevice) (st : State) : State :=
  if is_web (OS env) then
    let updatedDevice := withConnected device true in
    let st := setConnectedDevice (Some updatedDevice) st in
    setDevices (markConnected device updatedDevice) st
  else if negb (udpModule env) then st
  else
    let '(socket, st) := createSocket st in
    snd (schedule 0 None (ConnectBound socket device) st).

Definition disconnectDevice (env : Env) (st : State) : State :=
  let st :=
    match udpSocket st with
    | Some s =>
        if negb (is_web (OS env))
        then setUdpSocket None (closeSocket s st)
        else st
    | None => st
    end in
  match connectedDevice st with
  | Some c =>
      let st :=
        setDevices
          (map (fun d => if String.eqb (id d) (id c)
                         then withConnected d false else d)) st in
      setConnectedDevice None st
  | None => st
  end.

(** *** Sending colours *)

Definition sendColor (env : Env) (color : string) (outcome : SendOutcome)
    (st : State) : State :=
  match connectedDevice st with
  | None => st
  | Some device =>
      let rgb := hexToRgbBytes color in
      if is_web (OS env) then st
      else
        match udpSocket st with
        | None => st
        | Some socket =>
            let packet :=
              Buffer.from [Num 0; default NaN (rgb !! 0%nat);
                           default NaN (rgb !! 1%nat); default NaN (rgb !! 2%nat)] in
            socketSend socket packet (port device) (ipAddress device) outcome st
        end
  end.

Module Colors.
Record t : Type := mk {
  top : string;
  right : string;
  bottom : string;
  left : string
}.
End Colors.

(** The loop that detects the changed regions; [fuel] is the number of
    iterations left, [i] the loop variable. *)
Fixpoint changedLoop (fuel i : nat) (regions last : list string)
    (changedIndexes : list nat) : list nat :=
  match fuel with
  | O => changedIndexes
  | S fuel' =>
      changedLoop fuel' (S i) regions last
        (if bool_decide (regions !! i ≠ last !! i)
         then changedIndexes ++ [i]
         else changedIndexes)
  end.

Definition changedIndexes (regions last : list string) : list nat :=
  changedLoop (length regions) 0 regions last [].

Definition MAGIC : Z := 0xabcd.
Definition version : Z := 1.

Definition encodeHeader (heap : nat -> Z) (flags seq ts : Z) : option Buffer.t :=
  let header := Buffer.allocUnsafe 8 heap in
  header ← Buffer.writeUInt16BE MAGIC 0 header;
  header ← Buffer.writeUInt8 version 2 header;
  header ← Buffer.writeUInt8 flags 3 header;
  header ← Buffer.writeUInt16BE seq 4 header;
  Buffer.writeUInt16BE ts 6 header.

(** An array element that may be [undefined], as [hexToRgbBytes] and
    [Buffer.from] receive it. *)
Definition regionAt (regions : list string) (idx : nat) : string :=
  default "undefined"%string (regions !! idx).

Definition deltaPayload (regions : list string) (changedIndexes : list nat)
    : Buffer.t :=
  let entries :=
    fold_left
      (fun entries idx =>
         let rgb := hexToRgbBytes (regionAt regions idx) in
         entries ++ [Num (Z.of_nat idx); default NaN (rgb !! 0%nat);
                     default NaN (rgb !! 1%nat); default NaN (rgb !! 2%nat)])
      changedIndexes [] in
  Buffer.from (Num 2 :: Num (Z.of_nat (length changedIndexes)) :: entries).

Definition fullPayload (regions : list string) : Buffer.t :=
  let rgbValues :=
    fold_left (fun rgbValues color => rgbValues ++ hexToRgbBytes color)
      regions [] in
  Buffer.from (Num 1 :: rgbValues).

Definition sendRegionColors (env : Env) (now : Z) (colors : Colors.t)
    (outcome : SendOutcome) (st : State) : State :=
  match connectedDevice st with
  | None => st
  | Some device =>
      let regions := [Colors.top colors; Colors.right colors;
                      Colors.bottom colors; Colors.left colors] in
      let changedIndexes := changedIndexes regions (lastRegionsRef st) in
      let st := setLastRegionsRef regions st in
      if is_web (OS env) then st
      else
        match udpSocket st with
        | None => st
        | Some socket =>
            let isDelta :=
              Nat.ltb 0 (length changedIndexes)
              && Nat.ltb (length changedIndexes) (length regions) in
            let flags := if isDelta then 1 else 0 in
            let st := setSeqRef (bitand (seqRef st + 1) 0xffff) st in
            let seq := seqRef st in
            let ts := bitand now 0xffff in
            match encodeHeader (heap env) flags seq ts with
            | None => st
            | Some header =>
                let payload :=
                  if isDelta then deltaPayload regions changedIndexes
                  else fullPayload regions in
                let packet := Buffer.concat [header; payload] in
                socketSend socket packet (port device) (ipAddress device)
                  outcome st
            end
        end
  end.

(** *** The event loop

    Everything that can happen to the component: a call of one of the
    functions it exports, a datagram arriving on a socket, or the runtime
    invoking a queued callback. *)

Inductive Event : Type :=
| StartScan
| StopScan
| ConnectDevice (device : WiFiDevice)
| DisconnectDevice
| SendColor (color : string) (outcome : SendOutcome)
| SendRegionColors (colors : Colors.t) (outcome : SendOutcome)
| Message (socket : nat) (msg : option Response) (address : string)
| Fire (timer : nat).

Definition runTask (k : Task) (st : State) : State :=
  match k with
  | MockLoad =>
      setIsScanning false (setDevices (fun _ => MOCK_DEVICES) st)
  | ScanBound socket =>
      let st := sendDiscovery socket st in
      let '(interval, st) := setInterval (SendDiscovery socket) 3000 st in
      snd (setTimeout (ScanTimeout interval socket) 30000 st)
  | SendDiscovery socket => sendDiscovery socket st
  | ScanTimeout interval socket =>
      let st := clearInterval interval st in
      let st := closeSocket socket st in
      setIsScanning false st
  | ConnectBound socket device =>
      let st := setUdpSocket (Some socket) st in
      let updatedDevice := withConnected device true in
      let st := setConnectedDevice (Some updatedDevice) st in
      setDevices (markConnected device updatedDevice) st
  end.

(** The queue after callback [t] has been taken for execution: a timeout
    or bind callback leaves it, an interval is queued again one period
    later. *)
Definition requeue (t : Timer) (l : list Timer) : list Timer :=
  match period t with
  | None => filter (fun u => timerId u ≠ timerId t) l
  | Some p =>
      map (fun u => if Nat.eqb (timerId u) (timerId t)
                    then mkTimer (timerId u) (due u + p) (period u) (task u)
                    else u) l
  end.

(** No callback is overdue at time [t]. *)
Definition noneOverdue (t : Z) (st : State) : bool :=
  forallb (fun u => t <=? due u) (pending st).

(** One event at time [t]. [None] is a schedule that cannot occur: time
    running backwards, a callback overtaken or invoked off its due time, or
    a datagram on a socket that does not listen. *)
Definition step (env : Env) (t : Z) (e : Event) (st : State) : option State :=
  if negb ((clock st <=? t) && noneOverdue t st) then None
  else
    let st := setClock t st in
    match e with
    | StartScan => Some (startScan env st)
    | StopScan => Some (stopScan st)
    | ConnectDevice device => Some (connectDevice env device st)
    | DisconnectDevice => Some (disconnectDevice env st)
    | SendColor color outcome => Some (sendColor env color outcome st)
    | SendRegionColors colors outcome =>
        Some (sendRegionColors env (epoch env + t) colors outcome st)
    | Message socket msg address =>
        if socketListening socket st
        then Some (onMessage msg address st)
        else None
    | Fire h =>
        match List.find (fun u => Nat.eqb (timerId u) h) (pending st) with
        | Some u =>
            if due u =? t
            then Some (runTask (task u) (setPending (requeue u (pending st)) st))
            else None
        | None => None
        end
    end.

Fixpoint run (env : Env) (trace : list (Z * Event)) (st : State) : option State :=
  match trace with
  | [] => Some st
  | (t, e) :: trace' =>
      match step env t e st with
      | Some st' => run env trace' st'
      | None => None
      end
  end.

End WiFi.

(** ** The specification's vocabulary *)

Module Spec.

Import JS WiFi.

(** A hexadecimal digit. *)
Definition isHexDigit (c : ascii) : bool :=
  in_range "0" "9" c || in_range "a" "f" c || in_range "A" "F" c.

(** An optional ['#'] followed by exactly six hexadecimal digits. *)
Definition wellFormedColor (s : string) : bool :=
  let digits :=
    match chars s with
    | c :: digits => if Ascii.eqb c "#" then digits else c :: digits
    | [] => []
    end in
  Nat.eqb (length digits) 6 && forallb isHexDigit digits.

(** The value of a hexadecimal digit. *)
Definition hexValue (c : ascii) : Z := default 0 (digit_value c).

(** The unset sentinel of the last-sent regions. *)
Definition unset : list string :=
  [EmptyString; EmptyString; EmptyString; EmptyString].

(** The four streamed regions in canonical order. *)
Definition regionsOf (colors : Colors.t) : list string :=
  [Colors.top colors; Colors.right colors;
   Colors.bottom colors; Colors.left colors].

(** The indices whose new colour differs from the previously sent one, in
    canonical region order. *)
Definition changedRegions (regions last : list string) : list nat :=
  filter (fun i => regions !! i ≠ last !! i) [0; 1; 2; 3]%nat.

(** A session: a connected device with its transport endpoint. *)
Definition Connected (env : Env) (st : State) (device : WiFiDevice)
    (socket : nat) : Prop :=
  connectedDevice st = Some device ∧
  is_web (OS env) = false ∧
  udpSocket st = Some socket.

(** A 16-bit field in big-endian byte order. *)
Definition uint16BE (v : Z) : list Z := [v / 256; v `mod` 256].

(** The 8-byte header. *)
Definition header (flags seq ts : Z) : list Z :=
  uint16BE 0xabcd ++ [1; flags] ++ uint16BE seq ++ uint16BE ts.

(** The RGB triple of a region on the wire. *)
Definition rgb (color : string) : list Z := Buffer.from (hexToRgbBytes color).

(** Full payload: command 1, then the four RGB triples. *)
Definition full (regions : list string) : list Z :=
  1 :: flat_map rgb regions.

(** Delta payload: command 2, the count, then one entry per changed
    region. *)
Definition delta (regions : list string) (changed : list nat) : list Z :=
  2 :: Z.of_nat (length changed)
    :: flat_map (fun i => Z.of_nat i :: rgb (regionAt regions i)) changed.

(** The digits of a colour string: what follows an optional leading
    ['#']. *)
Definition digitsOf (s : string) : list ascii :=
  match chars s with
  | c :: digits => if Ascii.eqb c "#" then digits else c :: digits
  | [] => []
  end.

(** The bytes a colour stands for: the values of the three pairs of
    hexadecimal digits of a well-formed colour, red first, and black for
    every other string. *)
Definition triple (color : string) : list Z :=
  match digitsOf color with
  | [r1; r0; g1; g0; b1; b0] =>
      if wellFormedColor color
      then [16 * hexValue r1 + hexValue r0;
            16 * hexValue g1 + hexValue g0;
            16 * hexValue b1 + hexValue b0]
      else [0; 0; 0]
  | _ => [0; 0; 0]
  end.

(** The colour of a region, by its index in canonical order. *)
Definition regionColor (colors : Colors.t) (i : nat) : string :=
  match i with
  | 0%nat => Colors.top colors
  | 1%nat => Colors.right colors
  | 2%nat => Colors.bottom colors
  | _ => Colors.left colors
  end.

(** The sequence field of a frame. *)
Definition sequenceOf (d : Datagram) : Z :=
  default 0 (dgBytes d !! 4%nat) * 256 + default 0 (dgBytes d !! 5%nat).

(** Streaming a list of samples, each with its clock reading and the
    outcome of its transmission. *)
Definition stream (env : Env) (samples : list (Z * Colors.t * SendOutcome))
    (st : State) : State :=
  fold_left (fun st s => sendRegionColors env s.1.1 s.1.2 s.2 st) samples st.

(** A session as [connect] is said to create it. *)
Definition freshSession (st : State) : Prop :=
  seqRef st = 0 ∧ lastRegionsRef st = unset.


(** The state once a connection to [device] is established: at once on the
    web build, and when the bind callback has run elsewhere. *)
Definition established (env : Env) (device : WiFiDevice) (st : State)
    : option State :=
  run env
    ((clock st, ConnectDevice device)
     :: if is_web (OS env) then [] else [(clock st, Fire (nextTimer st))])
    st.

(** The runtime's queue is in order: nothing is overdue, and the handles
    in it were all issued before the next one. *)
Definition settled (st : State) : Prop :=
  noneOverdue (clock st) st = true ∧
  Forall (fun u => (timerId u < nextTimer st)%nat) (pending st).

(** What the event loop maintains: every queued callback is due no earlier
    than now, has a handle already issued, and, if it repeats, a period
    that is not negative; the sequence counter is a 16-bit value. *)
Definition timerOk (t : Z) (n : nat) (u : Timer) : Prop :=
  t ≤ due u ∧ (timerId u < n)%nat ∧ ∀ p, period u = Some p → 0 ≤ p.

Definition timersOk (st : State) : Prop :=
  Forall (timerOk (clock st) (nextTimer st)) (pending st).

Definition reachableOk (st : State) : Prop :=
  timersOk st ∧ 0 ≤ seqRef st < 65536.

(** The registry entry of an address: the first device that has it. *)
Definition entryOf (address : string) (l : list WiFiDevice)
    : option WiFiDevice :=
  List.find (fun d => String.eqb (ipAddress d) address) l.

(** The datagrams of a scan, handled in the order of their arrival. *)
Definition receive (msgs : list (option Response * string)) (st : State)
    : State :=
  fold_left (fun st m => onMessage m.1 m.2 st) msgs st.

(** The response a datagram carries for [address], when the handler
    accepts it: it parses, has the device discriminator, and comes from
    that address. *)
Definition acceptedFrom (address : string) (m : option Response * string)
    : option Response :=
  match m.1 with
  | Some r =>
      if bool_decide (r_type r = Some "ESP_LED_DEVICE"%string)
         && String.eqb m.2 address
      then Some r
      else None
  | None => None
  end.

(** A datagram that starts with the magic number of the region stream. *)
Definition isFrame (d : Datagram) : bool :=
  match dgBytes d with
  | a :: b :: _ => (a =? 0xab) && (b =? 0xcd)
  | _ => false
  end.

(** The colour-update frames among the datagrams sent so far. *)
Definition framesOf (st : State) : list Datagram :=
  List.filter isFrame (sent st).

(** The ways one event at time [t] takes the component from a state to
    the next, once the clock has been advanced. *)
Inductive Moves (env : Env) (t : Z) (st : State) : State → Prop :=
| MovesStartScan : Moves env t st (startScan env st)
| MovesStopScan : Moves env t st (stopScan st)
| MovesConnect device : Moves env t st (connectDevice env device st)
| MovesDisconnect : Moves env t st (disconnectDevice env st)
| MovesSendColor color outcome :
    Moves env t st (sendColor env color outcome st)
| MovesSendRegions colors outcome :
    Moves env t st (sendRegionColors env (epoch env + t) colors outcome st)
| MovesMessage socket msg address :
    socketListening socket st = true →
    Moves env t st (onMessage msg address st)
| MovesFire u :
    u ∈ pending st → due u = t →
    Moves env t st
      (runTask (task u) (setPending (requeue u (pending st)) st)).

(** The socket a queued callback will bind a session to, and the socket a
    queued callback of a scan works on. *)
Definition connectSocket (u : Timer) : option nat :=
  match task u with
  | ConnectBound s _ => Some s
  | _ => None
  end.

Definition scanSocket (u : Timer) : option nat :=
  match task u with
  | ScanBound s | SendDiscovery s | ScanTimeout _ s => Some s
  | _ => None
  end.

(** How the session, the sockets and the queued callbacks fit together:
    the socket of the session is open and carries no scan listener; the
    sockets of queued scan callbacks carry one; the socket of a queued bind
    callback is open, carries none, is not the session's and is queued at
    most once; the web build never holds a socket; elsewhere a device is
    connected exactly when a socket is held; and four regions are
    remembered. *)
Definition sessionOk (env : Env) (st : State) : Prop :=
  (∀ s, udpSocket st = Some s → sockets st !! s = Some (mkSocket true false)) ∧
  Forall (fun u => ∀ s, scanSocket u = Some s →
                        ∃ o, sockets st !! s = Some (mkSocket o true))
    (pending st) ∧
  Forall (fun u => ∀ s, connectSocket u = Some s →
                        period u = None ∧
                        sockets st !! s = Some (mkSocket true false) ∧
                        udpSocket st ≠ Some s)
    (pending st) ∧
  NoDup (omap connectSocket (pending st)) ∧
  (is_web (OS env) = true →
   udpSocket st = None ∧ omap connectSocket (pending st) = []) ∧
  (is_web (OS env) = false →
   (connectedDevice st = None ↔ udpSocket st = None)) ∧
  length (lastRegionsRef st) = 4%nat.

(** The command byte of the last frame handed to a socket. *)
Definition lastCommand (st : State) : option Z :=
  d ← last (sent st); dgBytes d !! 8%nat.

End Spec.

(** ** Sample data *)

Module Demo.

Import WiFi.

Definition native : Env := mkEnv android true true 1700000000000 (fun _ => 0).
Definition browser : Env := mkEnv web false true 1700000000000 (fun _ => 0).

Definition deviceA : WiFiDevice :=
  mkDevice "esp-a" "Desk" "192.168.1.20" 7777 (Some (-40)) false.
Definition deviceB : WiFiDevice :=
  mkDevice "esp-b" "Shelf" "192.168.1.21" 7777 (Some (-55)) false.

Definition sample1 : Colors.t :=
  Colors.mk "#102030" "#102030" "#102030" "#102030".
Definition sample2 : Colors.t :=
  Colors.mk "#102030" "#ffffff" "#102030" "#102030".

(** Connected to device A, nothing streamed yet. *)
Definition sessionA : State :=
  default initial
    (run native [(0, ConnectDevice deviceA); (0, Fire 0%nat)] initial).

(** Connected to device A, [sample1] streamed. *)
Definition streamedA : State :=
  sendRegionColors native 1700000000010 sample1 Delivered sessionA.

Definition response (strength : option Z) : Response :=
  mkResponse (Some "ESP_LED_DEVICE"%string) None None None strength.

(** A registry with two devices discovered. *)
Definition scanned : State :=
  onMessage (Some (response (Some (-40)))) "192.168.1.20"
    (onMessage (Some (response (Some (-70)))) "192.168.1.21" initial).

(** A scan started, its socket bound, then stopped by the user after one
    second. *)
Definition stopped : State :=
  default initial
    (run native [(0, StartScan); (0, Fire 0%nat); (1000, StopScan)] initial).

(** Two sessions in a row, with a legacy colour packet in between. *)
Definition twoSessions : list (Z * Event) :=
  [(0, ConnectDevice deviceA); (0, Fire 0%nat);
   (10, SendRegionColors sample1 Delivered);
   (15, SendColor "#ffffff" Delivered);
   (20, ConnectDevice deviceB); (20, Fire 1%nat);
   (30, SendRegionColors sample2 Delivered)].

Definition afterTwoSessions : State :=
  default initial (run native twoSessions initial).

(** The stopped scan of [stopped], up to the moment its 30-second timeout
    is due: the broadcast interval has fired nine times. *)
Definition lateScan : State :=
  default initial
    (run native
       [(3000, Fire 1%nat); (6000, Fire 1%nat); (9000, Fire 1%nat);
        (12000, Fire 1%nat); (15000, Fire 1%nat); (18000, Fire 1%nat);
        (21000, Fire 1%nat); (24000, Fire 1%nat); (27000, Fire 1%nat)]
       stopped).

(** The broadcast of the discovery request. *)
Definition discovery : Datagram :=
  mkDatagram 0 (Buffer.from_string DISCOVERY_MESSAGE) BROADCAST_PORT
    "255.255.255.255" Delivered.

End Demo.

(** ** Properties *)

Section JSFacts.

Import JS.

Lemma ToInt32_congr (z : Z) : ToInt32 z `mod` 2 ^ 16 = z `mod` 2 ^ 16.
Proof.
  unfold ToInt32.
  pose proof (Z.div_mod (z + 2 ^ 31) (2 ^ 32) ltac:(lia)) as E.
  replace ((z + 2 ^ 31) `mod` 2 ^ 32 - 2 ^ 31)
    with (z + (- ((z + 2 ^ 31) `div` 2 ^ 32) * 2 ^ 16) * 2 ^ 16) by lia.
  apply Z_mod_plus_full.
Qed.

Lemma bitand_0xffff (z : Z) : bitand z 0xffff = z `mod` 65536.
Proof.
  unfold bitand.
  change (ToInt32 65535) with (Z.ones 16).
  rewrite Z.land_ones by lia.
  apply ToInt32_congr.
Qed.

Lemma bitand_0xffff_range (z : Z) : 0 ≤ bitand z 0xffff < 65536.
Proof. rewrite bitand_0xffff. apply Z.mod_pos_bound. lia. Qed.

End JSFacts.

Section HexFacts.

Import JS WiFi.

Lemma class_matches_hex (c : ascii) :
  class_matches true [("a"%char, "f"%char); ("0"%char, "9"%char)] c
  = Spec.isHexDigit c.
Proof. destruct c as [[] [] [] [] [] [] [] []]; reflexivity. Qed.

Lemma eqb_canon_hash (c : ascii) :
  eqb_canon true "#" c = Ascii.eqb c "#".
Proof. destruct c as [[] [] [] [] [] [] [] []]; reflexivity. Qed.

Lemma hash_not_hex : Spec.isHexDigit "#" = false.
Proof. reflexivity. Qed.

(** The pattern is anchored: no match starts after index 0. *)
Lemma exec_from_anchored (input : list ascii) (fuel start : nat) :
  exec_from true HEX_RE input (S start) fuel = None.
Proof.
  revert start. induction fuel as [|fuel IH]; intros start; cbn; [done|].
  apply IH.
Qed.

Lemma exec_HEX_RE (hex : string) :
  exec true HEX_RE hex =
  match rmatch true (chars hex) HEX_RE (MState 0 (replicate 4 None)) Some with
  | Some y =>
      Some (<[0%nat := Some (substring 0 (endIndex y) (chars hex))]> (captures y))
  | None => None
  end.
Proof.
  unfold exec.
  destruct (length (chars hex)) as [|fuel]; cbn [exec_from].
  - change (S (group_count HEX_RE)) with 4%nat.
    by destruct (rmatch _ _ _ _ _).
  - change (S (group_count HEX_RE)) with 4%nat.
    destruct (rmatch _ _ _ _ _); [done|].
    apply exec_from_anchored.
Qed.

End HexFacts.

Section Codec.

Import JS WiFi.

Lemma rmatch_HEX_RE_None (input : list ascii) (caps : list (option string)) :
  (let digits :=
     match input with
     | c :: digits => if Ascii.eqb c "#" then digits else c :: digits
     | [] => []
     end in
   Nat.eqb (length digits) 6 && forallb Spec.isHexDigit digits) = false →
  rmatch true input HEX_RE (MState 0 caps) Some = None.
Proof.
  unfold HEX_RE, hexByte, RTwice.
  cbn [rmatch endIndex captures Nat.eqb].
  destruct input as [|c0 [|c1 [|c2 [|c3 [|c4 [|c5 [|c6 [|c7 l]]]]]]]];
    cbn [lookup list_lookup length Nat.eqb];
    rewrite ?class_matches_hex, ?eqb_canon_hash; try done.
  all: destruct (Ascii.eqb c0 "#") eqn:E0;
    [apply Ascii.eqb_eq in E0; subst c0; rewrite ?hash_not_hex|];
    cbn [length Nat.eqb forallb andb];
    repeat match goal with
      | |- context [Spec.isHexDigit ?c] => destruct (Spec.isHexDigit c)
      end; cbn [andb]; done.
Qed.

(** What a hexadecimal digit is to [parseInt]. *)
Lemma hex_digit_facts (c : ascii) :
  Spec.isHexDigit c = true →
  is_white c = false ∧ Ascii.eqb c "-" = false ∧ Ascii.eqb c "+" = false ∧
  Ascii.eqb c "x" = false ∧ Ascii.eqb c "X" = false ∧
  Ascii.eqb c "#" = false ∧
  digit_value c = Some (Spec.hexValue c) ∧
  (Spec.hexValue c <? 16) = true ∧ 0 ≤ Spec.hexValue c.
Proof.
  destruct c as [[] [] [] [] [] [] [] []]; intros H;
    try discriminate H; vm_compute; repeat split; congruence.
Qed.

Lemma parseInt_hex_pair (a b : ascii) :
  Spec.isHexDigit a = true → Spec.isHexDigit b = true →
  parseInt (String a (String b EmptyString)) 16
  = Num (16 * Spec.hexValue a + Spec.hexValue b).
Proof.
  intros Ha Hb.
  destruct (hex_digit_facts a Ha) as (Wa & Ma & Pa & _ & _ & _ & Da & La & _).
  destruct (hex_digit_facts b Hb) as (_ & _ & _ & Xb & XXb & _ & Db & Lb & _).
  unfold parseInt, chars. cbn [list_ascii_of_string trim_start take_sign].
  rewrite Wa. cbn [take_sign]. rewrite Ma, Pa.
  cbn [has_hex_prefix]. rewrite Xb, XXb, andb_false_r.
  cbn [Z.eqb Z.ltb Z.compare Pos.compare Pos.compare_cont orb andb
       parse_digits].
  rewrite Da, La, Db, Lb, andb_false_r. cbn [from_option default].
  unfold Datatypes.id. f_equal. lia.
Qed.

(** A well-formed colour converts to the values of its three digit
    pairs. *)
Lemma hexToRgbBytes_digits (hash : bool) (c0 c1 c2 c3 c4 c5 : ascii) :
  forallb Spec.isHexDigit [c0; c1; c2; c3; c4; c5] = true →
  hexToRgbBytes
    (string_of_list_ascii
       ((if hash then ["#"%char] else []) ++ [c0; c1; c2; c3; c4; c5]))
  = [ Num (16 * Spec.hexValue c0 + Spec.hexValue c1);
      Num (16 * Spec.hexValue c2 + Spec.hexValue c3);
      Num (16 * Spec.hexValue c4 + Spec.hexValue c5) ].
Proof.
  cbn [forallb]. rewrite !andb_true_iff.
  intros (H0 & H1 & H2 & H3 & H4 & H5 & _).
  destruct (hex_digit_facts c0 H0) as (_ & _ & _ & _ & _ & N0 & _).
  unfold hexToRgbBytes. rewrite exec_HEX_RE.
  unfold chars. rewrite list_ascii_of_string_of_list_ascii.
  unfold HEX_RE, hexByte, RTwice.
  destruct hash; cbn [app rmatch endIndex captures Nat.eqb lookup list_lookup
                      length];
    rewrite ?class_matches_hex, ?eqb_canon_hash, ?N0, ?H0, ?H1, ?H2, ?H3, ?H4, ?H5;
    cbn [Ascii.eqb Bool.eqb];
    rewrite ?class_matches_hex, ?H0, ?H1, ?H2, ?H3, ?H4, ?H5;
    cbn [captures replicate list_insert insert lookup list_lookup to_string
         substring take drop Nat.sub string_of_list_ascii];
    by rewrite !parseInt_hex_pair.
Qed.

Example hexToRgbBytes_sample :
  hexToRgbBytes "#1020Ff" = [Num 16; Num 32; Num 255] ∧
  hexToRgbBytes "a0B1c2" = [Num 160; Num 177; Num 194] ∧
  hexToRgbBytes "#12345" = [Num 0; Num 0; Num 0] ∧
  hexToRgbBytes "red" = [Num 0; Num 0; Num 0].
Proof. by vm_compute. Qed.

Lemma hexToRgbBytes_length (hex : string) : length (hexToRgbBytes hex) = 3%nat.
Proof. unfold hexToRgbBytes. by destruct (exec _ _ _). Qed.

Lemma byte_of_range (v : jsnum) : 0 ≤ Buffer.byte_of v < 256.
Proof. destruct v; cbn; [apply Z.mod_pos_bound|]; lia. Qed.

Lemma rgb_length (color : string) : length (Spec.rgb color) = 3%nat.
Proof. unfold Spec.rgb, Buffer.from. by rewrite length_map, hexToRgbBytes_length. Qed.

Lemma rgb_range (color : string) : Forall (fun b => 0 ≤ b < 256) (Spec.rgb color).
Proof.
  unfold Spec.rgb, Buffer.from. apply Forall_map, Forall_true.
  intros v. apply byte_of_range.
Qed.

(** Reading the three channels back by index gives the triple itself. *)
Lemma channels (color : string) :
  let rgb := hexToRgbBytes color in
  [default NaN (rgb !! 0%nat); default NaN (rgb !! 1%nat);
   default NaN (rgb !! 2%nat)] = rgb.
Proof.
  pose proof (hexToRgbBytes_length color) as L. cbn zeta.
  destruct (hexToRgbBytes color) as [|r [|g [|b [|? ?]]]]; by try discriminate.
Qed.

(** A well-formed colour, taken apart. *)
Lemma wellFormed_digits (hex : string) :
  Spec.wellFormedColor hex = true →
  ∃ (hash : bool) (c0 c1 c2 c3 c4 c5 : ascii),
    chars hex = (if hash then ["#"%char] else []) ++ [c0; c1; c2; c3; c4; c5] ∧
    forallb Spec.isHexDigit [c0; c1; c2; c3; c4; c5] = true ∧
    Spec.digitsOf hex = [c0; c1; c2; c3; c4; c5].
Proof.
  unfold Spec.wellFormedColor, Spec.digitsOf. intros H.
  destruct (chars hex) as [|c l]; [done|].
  destruct (Ascii.eqb c "#") eqn:E.
  - apply Ascii.eqb_eq in E. subst c.
    apply andb_true_iff in H as [Hlen Hall].
    destruct l as [|c0 [|c1 [|c2 [|c3 [|c4 [|c5 [|? ?]]]]]]]; try done.
    by exists true, c0, c1, c2, c3, c4, c5.
  - apply andb_true_iff in H as [Hlen Hall].
    destruct l as [|c1 [|c2 [|c3 [|c4 [|c5 [|? ?]]]]]]; try done.
    by exists false, c, c1, c2, c3, c4, c5.
Qed.

(** The bytes the code puts on the wire for a colour are the ones the
    colour stands for: the converter followed by the buffer's truncation
    computes the digit-pair values, and black for a malformed string. *)
Lemma rgb_triple (color : string) : Spec.rgb color = Spec.triple color.
Proof.
  unfold Spec.triple, Spec.rgb.
  destruct (Spec.wellFormedColor color) eqn:W.
  - destruct (wellFormed_digits color W)
      as (hash & c0 & c1 & c2 & c3 & c4 & c5 & Hchars & Hhex & ->).
    assert (hexToRgbBytes color
            = [ Num (16 * Spec.hexValue c0 + Spec.hexValue c1);
                Num (16 * Spec.hexValue c2 + Spec.hexValue c3);
                Num (16 * Spec.hexValue c4 + Spec.hexValue c5) ]) as ->.
    { rewrite <- (string_of_list_ascii_of_string color).
      fold (chars color). rewrite Hchars.
      by apply hexToRgbBytes_digits. }
    cbn [forallb] in Hhex. rewrite !andb_true_iff in Hhex.
    destruct Hhex as (H0 & H1 & H2 & H3 & H4 & H5 & _).
    destruct (hex_digit_facts c0 H0) as (_ & _ & _ & _ & _ & _ & _ & ? & ?).
    destruct (hex_digit_facts c1 H1) as (_ & _ & _ & _ & _ & _ & _ & ? & ?).
    destruct (hex_digit_facts c2 H2) as (_ & _ & _ & _ & _ & _ & _ & ? & ?).
    destruct (hex_digit_facts c3 H3) as (_ & _ & _ & _ & _ & _ & _ & ? & ?).
    destruct (hex_digit_facts c4 H4) as (_ & _ & _ & _ & _ & _ & _ & ? & ?).
    destruct (hex_digit_facts c5 H5) as (_ & _ & _ & _ & _ & _ & _ & ? & ?).
    cbn [Buffer.from map Buffer.byte_of].
    by rewrite !Z.mod_small by lia.
  - assert (hexToRgbBytes color = [Num 0; Num 0; Num 0]) as ->.
    { unfold hexToRgbBytes.
      by rewrite exec_HEX_RE, rmatch_HEX_RE_None by exact W. }
    by destruct (Spec.digitsOf color) as [|? [|? [|? [|? [|? [|? [|? ?]]]]]]].
Qed.

(** Reading a region by index from the array the code builds gives the
    region of that index. *)
Lemma regionAt_regionColor (colors : Colors.t) (i : nat) :
  (i < 4)%nat → regionAt (Spec.regionsOf colors) i = Spec.regionColor colors i.
Proof. intros H. destruct i as [|[|[|[|?]]]]; [done..|lia]. Qed.

Lemma full_triples (colors : Colors.t) :
  Spec.full (Spec.regionsOf colors)
  = 1 :: Spec.triple (Colors.top colors) ++ Spec.triple (Colors.right colors)
      ++ Spec.triple (Colors.bottom colors) ++ Spec.triple (Colors.left colors).
Proof.
  unfold Spec.full, Spec.regionsOf. cbn [flat_map].
  by rewrite app_nil_r, !rgb_triple.
Qed.

Lemma delta_triples (colors : Colors.t) (changed : list nat) :
  Forall (fun i => (i < 4)%nat) changed →
  Spec.delta (Spec.regionsOf colors) changed
  = 2 :: Z.of_nat (length changed)
      :: flat_map (fun i => Z.of_nat i :: Spec.triple (Spec.regionColor colors i))
           changed.
Proof.
  intros H. unfold Spec.delta. do 2 f_equal.
  induction H as [|i changed Hi _ IH]; [done|].
  cbn [flat_map]. by rewrite IH, rgb_triple, regionAt_regionColor.
Qed.

Lemma fold_push {A B} (f : A → list B) (l : list A) (acc : list B) :
  fold_left (fun acc x => acc ++ f x) l acc = acc ++ flat_map f l.
Proof.
  revert acc. induction l as [|x l IH]; intros acc; cbn.
  - by rewrite app_nil_r.
  - by rewrite IH, <- app_assoc.
Qed.

Lemma from_flat_map {A} (f : A → list jsnum) (l : list A) :
  Buffer.from (flat_map f l) = flat_map (fun x => Buffer.from (f x)) l.
Proof.
  unfold Buffer.from. induction l as [|x l IH]; cbn; [done|].
  by rewrite map_app, IH.
Qed.

Lemma fullPayload_full (regions : list string) :
  fullPayload regions = Spec.full regions.
Proof.
  unfold fullPayload, Spec.full. rewrite fold_push. cbn [app].
  change (Buffer.from (Num 1 :: ?l)) with (1 :: Buffer.from l).
  by rewrite from_flat_map.
Qed.

Lemma deltaPayload_delta (regions : list string) (changed : list nat) :
  (length changed < 256)%nat →
  Forall (fun i => (i < 256)%nat) changed →
  deltaPayload regions changed = Spec.delta regions changed.
Proof.
  intros Hlen Hidx. unfold deltaPayload, Spec.delta.
  rewrite (fold_push (fun idx =>
    let rgb := hexToRgbBytes (regionAt regions idx) in
    [Num (Z.of_nat idx); default NaN (rgb !! 0%nat);
     default NaN (rgb !! 1%nat); default NaN (rgb !! 2%nat)])).
  cbn [app].
  change (Buffer.from (Num 2 :: Num ?n :: ?l))
    with (2 :: n `mod` 256 :: Buffer.from l).
  rewrite Z.mod_small by lia. do 2 f_equal.
  rewrite from_flat_map.
  induction Hidx as [|i changed Hi _ IH]; cbn [flat_map]; [done|].
  rewrite IH by (cbn in Hlen; lia). f_equal.
  cbn zeta.
  change (Buffer.from (Num ?n :: ?l)) with (n `mod` 256 :: Buffer.from l).
  rewrite Z.mod_small by lia. f_equal.
  unfold Spec.rgb. f_equal. apply channels.
Qed.

Lemma encodeHeader_header (heap : nat → Z) (flags sq ts : Z) :
  0 ≤ flags ≤ 255 → 0 ≤ sq < 65536 → 0 ≤ ts < 65536 →
  encodeHeader heap flags sq ts = Some (Spec.header flags sq ts).
Proof.
  intros Hf Hs Ht. unfold encodeHeader, Buffer.writeUInt16BE, Buffer.writeUInt8.
  cbn [Buffer.allocUnsafe seq map length Nat.ltb Nat.leb].
  change (Z.land MAGIC 255) with 205. change (Z.shiftr MAGIC 8) with 171.
  change ((0 <=? MAGIC) && (MAGIC <=? 65535)) with true.
  change ((0 <=? version) && (version <=? 255)) with true.
  cbn [andb mbind option_bind list_insert insert length Nat.ltb Nat.leb].
  replace ((0 <=? flags) && (flags <=? 255)) with true by lia.
  cbn [andb mbind option_bind list_insert insert length Nat.ltb Nat.leb].
  replace ((0 <=? sq) && (sq <=? 65535)) with true by lia.
  cbn [andb mbind option_bind list_insert insert length Nat.ltb Nat.leb].
  replace ((0 <=? ts) && (ts <=? 65535)) with true by lia.
  cbn [andb mbind option_bind list_insert insert length Nat.ltb Nat.leb].
  change 255 with (Z.ones 8).
  rewrite !Z.land_ones, !Z.shiftr_div_pow2 by lia.
  reflexivity.
Qed.

End Codec.

Section Streaming.

Import JS WiFi.

Lemma changedLoop_filter (fuel i : nat) (regions last : list string)
    (acc : list nat) :
  changedLoop fuel i regions last acc
  = acc ++ filter (fun j => regions !! j ≠ last !! j) (seq i fuel).
Proof.
  revert i acc. induction fuel as [|fuel IH]; intros i acc; cbn [changedLoop seq].
  - by rewrite filter_nil, app_nil_r.
  - rewrite IH, filter_cons. case_bool_decide.
    + rewrite decide_True by done. by rewrite <- app_assoc.
    + rewrite decide_False; [done|]. by intros [].
Qed.

Lemma filter_sorted {A} (R : relation A) (P : A → Prop)
    `{!∀ x, Decision (P x)} (l : list A) :
  StronglySorted R l → StronglySorted R (filter P l).
Proof.
  induction 1 as [|x l Hl IH Hx]; [constructor|].
  rewrite filter_cons. destruct (decide (P x)); [|done].
  constructor; [done|]. apply Forall_forall. intros y Hy.
  apply list_elem_of_filter in Hy as [_ Hy].
  rewrite Forall_forall in Hx. by apply Hx.
Qed.

Lemma changedRegions_bound (regions last : list string) :
  Forall (fun i => (i < 4)%nat) (Spec.changedRegions regions last).
Proof.
  unfold Spec.changedRegions. apply Forall_forall. intros i Hi.
  apply list_elem_of_filter in Hi as [_ Hi].
  repeat (apply elem_of_cons in Hi as [->|Hi]; [lia|]).
  by apply elem_of_nil in Hi.
Qed.

Lemma changedRegions_length (regions last : list string) :
  (length (Spec.changedRegions regions last) ≤ 4)%nat.
Proof. unfold Spec.changedRegions. apply (length_filter _ [0;1;2;3]%nat). Qed.

(** What one call does in a session: the frame handed to the socket and the
    two refs it commits. *)
Lemma sendRegionColors_connected (env : Env) (now : Z) (colors : Colors.t)
    (outcome : SendOutcome) (st : State) (device : WiFiDevice) (socket : nat) :
  Spec.Connected env st device socket →
  let regions := Spec.regionsOf colors in
  let changed := Spec.changedRegions regions (lastRegionsRef st) in
  let isDelta := bool_decide (0 < length changed < 4)%nat in
  let sq := (seqRef st + 1) `mod` 65536 in
  sendRegionColors env now colors outcome st
  = socketSend socket
      (Spec.header (if isDelta then 1 else 0) sq (now `mod` 65536)
       ++ (if isDelta then Spec.delta regions changed else Spec.full regions))
      (port device) (ipAddress device) outcome
      (setSeqRef sq (setLastRegionsRef regions st)).
Proof.
  intros (Hdev & Hweb & Hsock) regions changed isDelta sq.
  unfold sendRegionColors. rewrite Hdev, Hweb.
  fold (Spec.regionsOf colors). fold regions.
  cbn [udpSocket setLastRegionsRef]. rewrite Hsock.
  unfold changedIndexes.
  change (length regions) with 4%nat.
  rewrite changedLoop_filter. cbn [app].
  change (filter _ (seq 0 4)) with changed.
  cbn [seqRef setSeqRef setLastRegionsRef].
  rewrite !bitand_0xffff. fold sq.
  assert (Nat.ltb 0 (length changed) && Nat.ltb (length changed) 4 = isDelta) as ->.
  { unfold isDelta. case_bool_decide as H.
    - apply andb_true_iff. split; apply Nat.ltb_lt; lia.
    - apply andb_false_iff.
      destruct (Nat.ltb_spec 0 (length changed)); [right|by left].
      apply Nat.ltb_ge. lia. }
  rewrite encodeHeader_header.
  - unfold Buffer.concat. cbn [concat]. rewrite app_nil_r.
    destruct isDelta eqn:E.
    + rewrite deltaPayload_delta; [done| |].
      * pose proof (changedRegions_length regions (lastRegionsRef st)).
        fold changed in H. lia.
      * eapply Forall_impl; [apply changedRegions_bound|]. cbn. lia.
    + by rewrite fullPayload_full.
  - destruct isDelta; lia.
  - apply Z.mod_pos_bound. lia.
  - apply Z.mod_pos_bound. lia.
Qed.

(** The scenario of the specification: from the unset state a first sample
    goes out as a full frame, and a second one that changes only the right
    region as a delta with one entry (1, 255, 255, 255). *)
Example full_then_delta :
  map dgBytes
    (sent (Spec.stream Demo.native
             [(1700000000010, Demo.sample1, Delivered);
              (1700000000020, Demo.sample2, Delivered)] Demo.sessionA))
  = [ [0xab; 0xcd; 1; 0; 0; 1; 104; 10;
       1; 16; 32; 48; 16; 32; 48; 16; 32; 48; 16; 32; 48];
      [0xab; 0xcd; 1; 1; 0; 2; 104; 20;
       2; 1; 1; 255; 255; 255] ].
Proof. by vm_compute. Qed.

End Streaming.

Section Claims.

Import JS WiFi.

(** C10. A colour string that is not an optional ['#'] followed by exactly
    six hexadecimal digits converts to [[0, 0, 0]]: both encoders put the
    bytes of black on the wire for it, and [sendColor] sends the packet
    [[0, 0, 0, 0]]; nothing is raised and nothing is skipped. *)
Theorem hexToRgbBytes_malformed (hex : string) :
  Spec.wellFormedColor hex = false →
  hexToRgbBytes hex = [Num 0; Num 0; Num 0] ∧
  Spec.rgb hex = [0; 0; 0] ∧
  ∀ env st device socket outcome,
    Spec.Connected env st device socket →
    sent (sendColor env hex outcome st)
    = sent st ++ [mkDatagram socket [0; 0; 0; 0] (port device)
                    (ipAddress device) outcome].
Proof.
  intros H.
  assert (hexToRgbBytes hex = [Num 0; Num 0; Num 0]) as E.
  { unfold hexToRgbBytes. rewrite exec_HEX_RE.
    by rewrite (rmatch_HEX_RE_None (chars hex) _ H). }
  split; [done|]. split.
  - unfold Spec.rgb. by rewrite E.
  - intros env st device socket outcome (Hdev & Hweb & Hsock).
    unfold sendColor. by rewrite Hdev, Hweb, Hsock, E.
Qed.

Lemma hexToRgbBytes_malformed_witness :
  Spec.wellFormedColor "#12345" = false ∧
  hexToRgbBytes "#12345" = [Num 0; Num 0; Num 0].
Proof.
  split; [reflexivity|].
  apply (hexToRgbBytes_malformed "#12345"). reflexivity.
Defined.

(** C3. The delta computation returns exactly the indices at which the new
    colour is not equal, as a string, to the previously sent one, in
    canonical region order top = 0, right = 1, bottom = 2, left = 3. *)
Theorem changedIndexes_exact (colors previous : Colors.t) :
  let regions := Spec.regionsOf colors in
  let last := Spec.regionsOf previous in
  changedIndexes regions last
  = filter (fun i => regions !! i ≠ last !! i) [0; 1; 2; 3]%nat ∧
  (0%nat ∈ changedIndexes regions last ↔ Colors.top colors ≠ Colors.top previous) ∧
  (1%nat ∈ changedIndexes regions last ↔ Colors.right colors ≠ Colors.right previous) ∧
  (2%nat ∈ changedIndexes regions last ↔ Colors.bottom colors ≠ Colors.bottom previous) ∧
  (3%nat ∈ changedIndexes regions last ↔ Colors.left colors ≠ Colors.left previous) ∧
  StronglySorted lt (changedIndexes regions last).
Proof.
  intros regions last.
  assert (changedIndexes regions last
          = filter (fun i => regions !! i ≠ last !! i) [0; 1; 2; 3]%nat) as E.
  { unfold changedIndexes. change (length regions) with 4%nat.
    by rewrite changedLoop_filter. }
  rewrite E. split; [done|].
  repeat split.
  1-8: rewrite ?list_elem_of_filter; cbn; try (intros [H _]; congruence).
  1-4: intros H; split; [congruence|]; rewrite !elem_of_cons; auto 6.
  apply filter_sorted.
  repeat constructor; lia.
Qed.

(** C8. With a device connected, the stored last-sent regions become the
    new four colours whatever happens to the transmission: on the web
    build, without a socket, and for every outcome of the send. The device
    stays connected, and the changes of the next sample are computed
    against these colours. *)
Theorem lastRegions_committed (env : Env) (now : Z) (colors : Colors.t)
    (outcome : SendOutcome) (st : State) (device : WiFiDevice) :
  connectedDevice st = Some device →
  let st' := sendRegionColors env now colors outcome st in
  lastRegionsRef st' = Spec.regionsOf colors ∧
  connectedDevice st' = Some device ∧
  ∀ next : Colors.t,
    changedIndexes (Spec.regionsOf next) (lastRegionsRef st')
    = Spec.changedRegions (Spec.regionsOf next) (Spec.regionsOf colors).
Proof.
  intros Hdev st'.
  assert (lastRegionsRef st' = Spec.regionsOf colors ∧
          connectedDevice st' = Some device) as [E1 E2].
  { unfold st', sendRegionColors. rewrite Hdev.
    destruct (is_web (OS env)); [done|].
    cbn [udpSocket setLastRegionsRef].
    destruct (udpSocket st); [|done].
    by destruct (encodeHeader _ _ _ _). }
  split; [done|]. split; [done|].
  intros next. rewrite E1. unfold changedIndexes.
  change (length (Spec.regionsOf next)) with 4%nat.
  by rewrite changedLoop_filter.
Qed.

(** Outside a session nothing is encoded: no frame is handed to a socket
    and the sequence counter stays. *)
Lemma sendRegionColors_no_session (env : Env) (now : Z) (colors : Colors.t)
    (outcome : SendOutcome) (st : State) :
  connectedDevice st = None ∨ is_web (OS env) = true ∨ udpSocket st = None →
  sent (sendRegionColors env now colors outcome st) = sent st ∧
  seqRef (sendRegionColors env now colors outcome st) = seqRef st.
Proof.
  intros H. unfold sendRegionColors.
  destruct (connectedDevice st); [|done].
  destruct (is_web (OS env)); [done|].
  cbn [udpSocket setLastRegionsRef].
  destruct (udpSocket st); [|done].
  by destruct H as [?|[?|?]].
Qed.

End Claims.

Section FrameClaims.

Import JS WiFi.

Lemma full_length (regions : list string) :
  length regions = 4%nat → length (Spec.full regions) = 13%nat.
Proof.
  destruct regions as [|a [|b [|c [|d [|? ?]]]]]; try discriminate. intros _.
  unfold Spec.full. cbn [flat_map length]. rewrite !length_app, !rgb_length.
  reflexivity.
Qed.

Lemma delta_length (regions : list string) (changed : list nat) :
  length (Spec.delta regions changed) = (2 + 4 * length changed)%nat.
Proof.
  unfold Spec.delta. cbn [length].
  enough (length (flat_map (fun i => Z.of_nat i :: Spec.rgb (regionAt regions i))
                    changed) = (4 * length changed)%nat) by lia.
  induction changed as [|i changed IH]; [done|].
  cbn [flat_map length app]. rewrite length_app, rgb_length, IH. lia.
Qed.

Lemma payload_bytes (regions : list string) (changed : list nat) :
  Forall (fun i => (i < 4)%nat) changed → (length changed ≤ 4)%nat →
  Forall (fun b => 0 ≤ b < 256) (Spec.full regions) ∧
  Forall (fun b => 0 ≤ b < 256) (Spec.delta regions changed).
Proof.
  intros Hidx Hlen. split.
  - unfold Spec.full. constructor; [lia|].
    induction regions as [|c regions IH]; cbn [flat_map]; [constructor|].
    apply Forall_app. split; [apply rgb_range|done].
  - unfold Spec.delta. constructor; [lia|]. constructor; [lia|].
    induction Hidx as [|i changed Hi _ IH]; cbn [flat_map]; [constructor|].
    constructor; [lia|]. apply Forall_app. split; [apply rgb_range|].
    apply IH. cbn in Hlen. lia.
Qed.

(** C1. The frame handed to the socket by [sendRegionColors] is the 8-byte
    big-endian header (magic 0xABCD, version 1, flags with bit 0 set exactly
    for a delta payload, the 16-bit sequence, the low 16 bits of the
    millisecond clock) followed by the payload: command 1 and the twelve
    bytes of the four RGB triples in the order top, right, bottom, left, or
    command 2, the count, and one entry (index, R, G, B) per changed
    region, every index below 4. The R, G, B of a region are the values of
    the three digit pairs of its colour, and 0, 0, 0 when the colour is
    malformed. Every element is a byte. *)
Theorem frame_layout (env : Env) (now : Z) (colors : Colors.t)
    (outcome : SendOutcome) (st : State) (device : WiFiDevice) (socket : nat) :
  Spec.Connected env st device socket →
  let sq := (seqRef st + 1) `mod` 65536 in
  let ts := now `mod` 65536 in
  let changed := Spec.changedRegions (Spec.regionsOf colors) (lastRegionsRef st) in
  ∃ flags payload,
    sent (sendRegionColors env now colors outcome st)
    = sent st ++
      [mkDatagram socket
         ([0xab; 0xcd; 1; flags; sq / 256; sq `mod` 256; ts / 256; ts `mod` 256]
          ++ payload)
         (port device) (ipAddress device) outcome] ∧
    Forall (fun b => 0 ≤ b < 256)
      ([0xab; 0xcd; 1; flags; sq / 256; sq `mod` 256; ts / 256; ts `mod` 256]
       ++ payload) ∧
    ((flags = 0 ∧ Z.testbit flags 0 = false ∧
      payload = 1 :: Spec.triple (Colors.top colors)
                  ++ Spec.triple (Colors.right colors)
                  ++ Spec.triple (Colors.bottom colors)
                  ++ Spec.triple (Colors.left colors) ∧
      length payload = 13%nat)
     ∨
     (flags = 1 ∧ Z.testbit flags 0 = true ∧
      payload = 2 :: Z.of_nat (length changed)
                  :: flat_map (fun i => Z.of_nat i
                                 :: Spec.triple (Spec.regionColor colors i))
                       changed ∧
      length payload = (2 + 4 * length changed)%nat ∧
      Forall (fun i => (i < 4)%nat) changed)).
Proof.
  intros HC sq ts changed.
  rewrite (sendRegionColors_connected env now colors outcome st device socket HC).
  set (regions := Spec.regionsOf colors) in *.
  pose proof (changedRegions_bound regions (lastRegionsRef st)) as Hidx.
  pose proof (changedRegions_length regions (lastRegionsRef st)) as Hlen.
  fold changed in Hidx, Hlen. fold changed.
  destruct (payload_bytes regions changed Hidx Hlen) as [Bfull Bdelta].
  assert (Forall (fun b => 0 ≤ b < 256) [sq / 256; sq `mod` 256; ts / 256; ts `mod` 256])
    as Bhead.
  { pose proof (Z.mod_pos_bound (seqRef st + 1) 65536 ltac:(lia)) as Hsq.
    pose proof (Z.mod_pos_bound now 65536 ltac:(lia)) as Hts.
    fold sq in Hsq. fold ts in Hts.
    repeat constructor;
      try apply Z.div_pos; try apply Z.div_lt_upper_bound;
      try apply Z.mod_pos_bound; lia. }
  inversion Bhead as [|? ? B1 Bhead1]; subst.
  inversion Bhead1 as [|? ? B2 Bhead2]; subst.
  inversion Bhead2 as [|? ? B3 Bhead3]; subst.
  inversion Bhead3 as [|? ? B4 _]; subst.
  destruct (bool_decide (0 < length changed < 4)%nat) eqn:E.
  - exists 1, (Spec.delta regions changed). split; [done|]. split.
    + apply Forall_app. split; [|done]. repeat (constructor; [lia|]). constructor.
    + right. split; [done|]. split; [done|].
      split; [by apply delta_triples|]. split; [|done].
      apply delta_length.
  - exists 0, (Spec.full regions). split; [done|]. split.
    + apply Forall_app. split; [|done]. repeat (constructor; [lia|]). constructor.
    + left. split; [done|]. split; [done|].
      split; [apply full_triples|]. by apply full_length.
Qed.

Lemma frame_layout_witness :
  Spec.Connected Demo.native Demo.streamedA (withConnected Demo.deviceA true) 0 ∧
  ∃ flags payload,
    sent (sendRegionColors Demo.native 1700000000020 Demo.sample2 Delivered
            Demo.streamedA)
    = sent Demo.streamedA ++
      [mkDatagram 0%nat ([0xab; 0xcd; 1; flags; 0; 2; 104; 20] ++ payload)
         7777 "192.168.1.20" Delivered] ∧
    flags = 1 ∧ payload = [2; 1; 1; 255; 255; 255].
Proof.
  assert (Spec.Connected Demo.native Demo.streamedA
            (withConnected Demo.deviceA true) 0) as HC.
  { repeat split; reflexivity. }
  split; [exact HC|].
  destruct (frame_layout Demo.native 1700000000020 Demo.sample2 Delivered
              Demo.streamedA _ _ HC)
    as (flags & payload & Hsent & _ & [(F & _ & P & _)|(F & _ & P & _)]).
  - exfalso. rewrite F in Hsent. vm_compute in Hsent. discriminate Hsent.
  - exists flags, payload. split; [exact Hsent|]. split; [exact F|].
    rewrite P. reflexivity.
Defined.

(** C2. With a connected device, a call in a session (native platform, the
    session's socket set) hands exactly one frame to that socket. The frame
    is delta-encoded exactly when 1, 2 or 3 regions changed; with no region
    or all four changed it is a full frame, so a call that changes nothing
    still sends one. On the web build, or with no socket set, the call
    hands nothing to any socket. *)
Theorem encoding_rule (env : Env) (now : Z) (colors : Colors.t)
    (outcome : SendOutcome) (st : State) (device : WiFiDevice) :
  connectedDevice st = Some device →
  let regions := Spec.regionsOf colors in
  let changed := Spec.changedRegions regions (lastRegionsRef st) in
  let n := length changed in
  (n ≤ 4)%nat ∧
  (∀ socket,
     is_web (OS env) = false → udpSocket st = Some socket →
     ∃ frame,
       sent (sendRegionColors env now colors outcome st) = sent st ++ [frame] ∧
       dgSocket frame = socket ∧
       take 3 (dgBytes frame) = [0xab; 0xcd; 1] ∧
       (if bool_decide (n = 1 ∨ n = 2 ∨ n = 3)%nat
        then dgBytes frame !! 3%nat = Some 1 ∧
             drop 8 (dgBytes frame) = Spec.delta regions changed
        else dgBytes frame !! 3%nat = Some 0 ∧
             drop 8 (dgBytes frame) = Spec.full regions)) ∧
  (is_web (OS env) = true ∨ udpSocket st = None →
   sent (sendRegionColors env now colors outcome st) = sent st).
Proof.
  intros Hdev regions changed n.
  split; [apply changedRegions_length|]. split.
  - intros socket Hweb Hsock.
    assert (Spec.Connected env st device socket) as HC by done.
    rewrite (sendRegionColors_connected env now colors outcome st device socket HC).
    fold regions. fold changed.
    eexists. split; [reflexivity|]. cbn [dgSocket dgBytes].
    split; [done|]. split; [done|].
    assert (bool_decide (n = 1 ∨ n = 2 ∨ n = 3)%nat
            = bool_decide (0 < length changed < 4)%nat) as ->.
    { apply bool_decide_ext. fold n. lia. }
    by destruct (bool_decide _).
  - intros H.
    apply (sendRegionColors_no_session env now colors outcome st). by right.
Qed.

Lemma encoding_rule_witness :
  connectedDevice Demo.streamedA = Some (withConnected Demo.deviceA true) ∧
  Spec.changedRegions (Spec.regionsOf Demo.sample1) (lastRegionsRef Demo.streamedA)
  = [] ∧
  ∃ frame,
    sent (sendRegionColors Demo.native 1700000000020 Demo.sample1 Delivered
            Demo.streamedA)
    = sent Demo.streamedA ++ [frame] ∧
    dgBytes frame !! 3%nat = Some 0 ∧
    drop 8 (dgBytes frame)
    = [1; 16; 32; 48; 16; 32; 48; 16; 32; 48; 16; 32; 48].
Proof.
  split; [reflexivity|]. split; [reflexivity|].
  destruct (encoding_rule Demo.native 1700000000020 Demo.sample1 Delivered
              Demo.streamedA _ eq_refl) as (_ & Hsession & _).
  destruct (Hsession 0%nat eq_refl eq_refl) as (frame & Hsent & _ & _ & Hflag & Hbytes).
  exists frame. split; [exact Hsent|]. split; [exact Hflag|].
  rewrite Hbytes. reflexivity.
Defined.

(** C2, as stated, fails: on the web build connecting sets the connected
    device and no socket, and a call with that connected device, all four
    regions changed, hands no frame to any socket. *)
Lemma web_session_sends_no_frame :
  ∃ st,
    Spec.established Demo.browser Demo.deviceA initial = Some st ∧
    connectedDevice st = Some (withConnected Demo.deviceA true) ∧
    Spec.changedRegions (Spec.regionsOf Demo.sample1) (lastRegionsRef st)
    = [0; 1; 2; 3]%nat ∧
    sent (sendRegionColors Demo.browser 1700000000010 Demo.sample1 Delivered st)
    = [].
Proof.
  eexists. split; [reflexivity|]. by vm_compute.
Qed.

End FrameClaims.

Section Sequence.

Import JS WiFi.

Lemma sequenceOf_frame (socket : nat) (flags sq ts : Z) (payload : list Z)
    (p : Z) (address : string) (outcome : SendOutcome) :
  Spec.sequenceOf
    (mkDatagram socket (Spec.header flags sq ts ++ payload) p address outcome)
  = sq.
Proof.
  unfold Spec.sequenceOf. cbn.
  pose proof (Z.div_mod sq 256 ltac:(lia)). lia.
Qed.

Lemma map_seq_succ (f : nat → Z) (n : nat) :
  map f (seq 2 n) = map (fun k => f (S k)) (seq 1 n).
Proof. by rewrite <- List.seq_shift, map_map. Qed.

Lemma stream_sequences (env : Env) (device : WiFiDevice) (socket : nat)
    (samples : list (Z * Colors.t * SendOutcome)) (st : State) :
  Spec.Connected env st device socket →
  Spec.Connected env (Spec.stream env samples st) device socket ∧
  seqRef (Spec.stream env samples st) `mod` 65536
  = (seqRef st + Z.of_nat (length samples)) `mod` 65536 ∧
  (samples ≠ [] → 0 ≤ seqRef (Spec.stream env samples st) < 65536) ∧
  ∃ frames,
    sent (Spec.stream env samples st) = sent st ++ frames ∧
    map Spec.sequenceOf frames
    = map (fun k => (seqRef st + Z.of_nat k) `mod` 65536)
        (seq 1 (length samples)).
Proof.
  revert st. induction samples as [|[[now colors] outcome] samples IH];
    intros st HC.
  - cbn. rewrite Z.add_0_r. split; [done|split; [done|split; [done|]]].
    exists nil. by rewrite app_nil_r.
  - cbn [Spec.stream fold_left fst snd].
    pose proof (sendRegionColors_connected env now colors outcome st device
                  socket HC) as E. cbn zeta in E.
    set (st1 := sendRegionColors env now colors outcome st) in *.
    assert (Spec.Connected env st1 device socket) as HC1.
    { destruct HC as (? & ? & ?). rewrite E. by repeat split. }
    assert (seqRef st1 = (seqRef st + 1) `mod` 65536) as Hsq by (by rewrite E).
    destruct (IH st1 HC1) as (HCn & Hmod & Hrange & frames & Hsent & Hseqs).
    fold (Spec.stream env samples st1).
    split; [done|]. split; [|split].
    + rewrite Hmod, Hsq, Zplus_mod_idemp_l. f_equal. cbn [length]. lia.
    + intros _. destruct samples as [|s samples].
      * cbn. rewrite Hsq. apply Z.mod_pos_bound. lia.
      * by apply Hrange.
    + eexists (_ :: frames). split.
      * rewrite Hsent, E. cbn [sent socketSend setSent].
        rewrite <- app_assoc. reflexivity.
      * cbn [map length seq]. rewrite sequenceOf_frame. f_equal.
        rewrite Hseqs, map_seq_succ. apply map_ext. intros k.
        rewrite Hsq, Zplus_mod_idemp_l. f_equal. lia.
Qed.

Lemma sequences_distinct (s : Z) (n : nat) :
  Z.of_nat n ≤ 65536 →
  NoDup (map (fun k => (s + Z.of_nat k) `mod` 65536) (seq 1 n)).
Proof.
  intros Hn. apply NoDup_fmap_2_strong; [|apply NoDup_seq].
  intros j k Hj Hk E.
  apply elem_of_seq in Hj, Hk.
  pose proof (Z.div_mod (s + Z.of_nat j) 65536 ltac:(lia)) as Dj.
  pose proof (Z.div_mod (s + Z.of_nat k) 65536 ltac:(lia)) as Dk.
  rewrite E in Dj.
  assert ((s + Z.of_nat j) `div` 65536 = (s + Z.of_nat k) `div` 65536) by lia.
  lia.
Qed.

(** C4. In a session every frame carries the sequence number of the frame
    before it plus one, modulo 65536; any run of at most 65536 frames
    carries pairwise distinct numbers, and after exactly 65536 frames the
    counter is back at the value it started from. A frame counts from the
    moment it is handed to the socket, whatever the outcome of the send. *)
Theorem sequence_wraps (env : Env) (device : WiFiDevice) (socket : nat)
    (samples : list (Z * Colors.t * SendOutcome)) (st : State) :
  Spec.Connected env st device socket →
  0 ≤ seqRef st < 65536 →
  ∃ frames,
    sent (Spec.stream env samples st) = sent st ++ frames ∧
    length frames = length samples ∧
    map Spec.sequenceOf frames
    = map (fun k => (seqRef st + Z.of_nat k) `mod` 65536)
        (seq 1 (length samples)) ∧
    seqRef (Spec.stream env samples st)
    = (seqRef st + Z.of_nat (length samples)) `mod` 65536 ∧
    (Z.of_nat (length samples) ≤ 65536 → NoDup (map Spec.sequenceOf frames)) ∧
    (Z.of_nat (length samples) = 65536 →
     seqRef (Spec.stream env samples st) = seqRef st).
Proof.
  intros HC Hrange.
  destruct (stream_sequences env device socket samples st HC)
    as (_ & Hmod & Hr & frames & Hsent & Hseqs).
  assert (seqRef (Spec.stream env samples st)
          = (seqRef st + Z.of_nat (length samples)) `mod` 65536) as Hfinal.
  { rewrite <- Hmod. symmetry. apply Z.mod_small.
    destruct samples; [done|]. by apply Hr. }
  exists frames. split; [done|]. split; [|split; [done|split; [done|split]]].
  - apply (f_equal length) in Hseqs. by rewrite !length_map, length_seq in Hseqs.
  - intros Hn. rewrite Hseqs. by apply sequences_distinct.
  - intros Hn. rewrite Hfinal, Hn.
    change 65536 with (1 * 65536) at 1.
    rewrite Z_mod_plus_full. by apply Z.mod_small.
Qed.

Lemma sequence_wraps_witness :
  ∃ frames,
    sent (Spec.stream Demo.native
            [(1700000000020, Demo.sample2, Delivered);
             (1700000000030, Demo.sample2, Throws)] Demo.streamedA)
    = sent Demo.streamedA ++ frames ∧
    map Spec.sequenceOf frames = [2; 3].
Proof.
  destruct (sequence_wraps Demo.native (withConnected Demo.deviceA true) 0
              [(1700000000020, Demo.sample2, Delivered);
               (1700000000030, Demo.sample2, Throws)] Demo.streamedA)
    as (frames & Hsent & _ & Hseqs & _).
  - repeat split; reflexivity.
  - change (seqRef Demo.streamedA) with 1. lia.
  - exists frames. split; [exact Hsent|exact Hseqs].
Defined.

End Sequence.

Section Discovery.

Import JS WiFi.

Lemma findIndex_spec {A} (pred : A → bool) (l : list A) :
  (findIndex pred l = -1 ∧ Forall (fun x => pred x = false) l) ∨
  (∃ (i : nat) (x : A),
     findIndex pred l = Z.of_nat i ∧ l !! i = Some x ∧ pred x = true ∧
     ∀ (j : nat) (y : A), (j < i)%nat → l !! j = Some y → pred y = false).
Proof.
  induction l as [|a l IH]; cbn [findIndex].
  - left. by split.
  - destruct (pred a) eqn:Ea.
    + right. exists 0%nat, a. repeat split; try done. lia.
    + destruct IH as [[E Hall]|(i & x & E & Hx & Hp & Hmin)]; rewrite E.
      * left. split; [done|]. by constructor.
      * right. exists (S i), x.
        replace (Z.of_nat i <? 0) with false by lia.
        split; [lia|]. split; [done|]. split; [done|].
        intros [|j] y Hj Hy; cbn in Hy; [congruence|].
        apply (Hmin j y); [lia|done].
Qed.

Lemma withRssi_address (d : WiFiDevice) (r : option Z) :
  ipAddress (withRssi d r) = ipAddress d.
Proof. done. Qed.

(** The two ways the registry can change on a response from [address]. *)
Lemma registerDevice_cases (new : WiFiDevice) (prev : list WiFiDevice) :
  (∃ (i : nat) (old : WiFiDevice),
     prev !! i = Some old ∧ ipAddress old = ipAddress new ∧
     (∀ (j : nat) (d : WiFiDevice),
        (j < i)%nat → prev !! j = Some d → ipAddress d ≠ ipAddress new) ∧
     registerDevice new prev = <[i := withRssi old (rssi new)]> prev)
  ∨
  ((∀ d, d ∈ prev → ipAddress d ≠ ipAddress new) ∧
   registerDevice new prev = prev ++ [new]).
Proof.
  unfold registerDevice.
  destruct (findIndex_spec
              (fun d => String.eqb (ipAddress d) (ipAddress new)) prev)
    as [[E Hall]|(i & old & E & Hold & Hp & Hmin)]; rewrite E.
  - right. split; [|done]. intros d Hd Heq.
    rewrite Forall_forall in Hall. specialize (Hall d Hd). cbn in Hall.
    apply String.eqb_neq in Hall. done.
  - left. exists i, old.
    replace (0 <=? Z.of_nat i) with true by lia.
    rewrite Nat2Z.id, Hold. apply String.eqb_eq in Hp.
    repeat split; try done.
    intros j d Hj Hd. specialize (Hmin j d Hj Hd). cbn in Hmin.
    by apply String.eqb_neq in Hmin.
Qed.

Lemma registerDevice_distinct (new : WiFiDevice) (prev : list WiFiDevice) :
  NoDup (ipAddress <$> prev) → NoDup (ipAddress <$> registerDevice new prev).
Proof.
  intros Hnd.
  destruct (registerDevice_cases new prev)
    as [(i & old & Hold & Hsame & _ & E)|[Hfresh E]]; rewrite E.
  - rewrite list_fmap_insert, withRssi_address, list_insert_id; [done|].
    by rewrite list_lookup_fmap, Hold.
  - rewrite fmap_app. apply NoDup_app. split; [done|]. split.
    + intros a Ha Ha'. apply list_elem_of_singleton in Ha'. subst a.
      apply list_elem_of_fmap in Ha as (d & Hd & Hin).
      by apply (Hfresh d Hin).
    + apply NoDup_singleton.
Qed.

(** C9. The registry is keyed by the sender address. A well-formed response
    from an address already present changes only the signal strength of
    that entry, in place; from a new address it appends one entry at the
    end. So the list of addresses keeps its order, stays free of
    duplicates, and the entry of the sender carries the signal strength of
    the latest response. The identifier plays no part. *)
Theorem registry_keyed_by_address (response : Response) (address : string)
    (st : State) :
  r_type response = Some "ESP_LED_DEVICE"%string →
  let before := devices st in
  let after := devices (onMessage (Some response) address st) in
  ((∃ (i : nat) (old : WiFiDevice),
      before !! i = Some old ∧ ipAddress old = address ∧
      after = <[i := withRssi old (r_rssi response)]> before ∧
      ipAddress <$> after = ipAddress <$> before)
   ∨
   ((∀ d, d ∈ before → ipAddress d ≠ address) ∧
    after = before ++ [deviceOfResponse response address] ∧
    ipAddress <$> after = (ipAddress <$> before) ++ [address])) ∧
  (∃ d, d ∈ after ∧ ipAddress d = address ∧ rssi d = r_rssi response) ∧
  (NoDup (ipAddress <$> before) →
   NoDup (ipAddress <$> after) ∧
   ∀ d, d ∈ after → ipAddress d = address → rssi d = r_rssi response).
Proof.
  intros Htype before after.
  assert (after = registerDevice (deviceOfResponse response address) before)
    as Eafter.
  { unfold after, onMessage. by rewrite bool_decide_eq_true_2. }
  set (new := deviceOfResponse response address) in *.
  assert (ipAddress new = address) as Haddr by done.
  assert (rssi new = r_rssi response) as Hrssi by done.
  destruct (registerDevice_cases new before)
    as [(i & old & Hold & Hsame & Hmin & E)|[Hfresh E]];
    rewrite <- Eafter, ?Haddr, ?Hrssi in *.
  - assert (ipAddress <$> after = ipAddress <$> before) as Hmap.
    { rewrite E, list_fmap_insert, withRssi_address.
      apply list_insert_id. by rewrite list_lookup_fmap, Hold. }
    split; [left; by exists i, old|]. split.
    + exists (withRssi old (r_rssi response)). split; [|done].
      rewrite E. apply list_elem_of_lookup. exists i.
      apply list_lookup_insert_eq. by eapply lookup_lt_Some.
    + intros Hnd. split; [by rewrite Hmap|].
      intros d Hd Hda. rewrite E in Hd.
      apply list_elem_of_lookup in Hd as [j Hj].
      destruct (decide (i = j)) as [->|Hne].
      * rewrite list_lookup_insert_eq in Hj by (by eapply lookup_lt_Some).
        by inversion Hj.
      * rewrite list_lookup_insert_ne in Hj by done.
        exfalso. apply Hne.
        eapply (NoDup_lookup (ipAddress <$> before) i j address); [done| |].
        -- by rewrite list_lookup_fmap, Hold; cbn; rewrite Hsame.
        -- by rewrite list_lookup_fmap, Hj; cbn; rewrite Hda.
  - assert (ipAddress <$> after = (ipAddress <$> before) ++ [address]) as Hmap.
    { by rewrite E, fmap_app. }
    split; [right; by repeat split|]. split.
    + exists new. split; [|done]. rewrite E. apply elem_of_app. right.
      by apply list_elem_of_singleton.
    + intros Hnd. split.
      * rewrite Hmap. apply NoDup_app. split; [done|]. split.
        -- intros a Ha Ha'. apply list_elem_of_singleton in Ha'. subst a.
           apply list_elem_of_fmap in Ha as (d & Hd & Hin).
           by apply (Hfresh d Hin).
        -- apply NoDup_singleton.
      * intros d Hd Hda. rewrite E in Hd. apply elem_of_app in Hd as [Hd|Hd].
        -- by destruct (Hfresh d Hd).
        -- apply list_elem_of_singleton in Hd. by subst d.
Qed.

Lemma registry_keyed_by_address_witness :
  ∃ d, d ∈ devices (onMessage (Some (Demo.response (Some (-52))))
                      "192.168.1.21" Demo.scanned) ∧
       ipAddress d = "192.168.1.21"%string ∧ rssi d = Some (-52).
Proof.
  exact (proj1 (proj2 (registry_keyed_by_address (Demo.response (Some (-52)))
                         "192.168.1.21" Demo.scanned eq_refl))).
Defined.

(** Over a whole scan, which starts from the cleared registry, the
    addresses are pairwise distinct. *)
Lemma scan_addresses_distinct (msgs : list (option Response * string))
    (st : State) :
  NoDup (ipAddress <$> devices st) →
  NoDup (ipAddress <$>
           devices (fold_left (fun st m => onMessage m.1 m.2 st) msgs st)).
Proof.
  revert st. induction msgs as [|[msg address] msgs IH]; intros st Hnd; [done|].
  cbn [fold_left fst snd]. apply IH.
  destruct msg as [response|]; [|done].
  unfold onMessage. case_bool_decide; [|done].
  by apply registerDevice_distinct.
Qed.

End Discovery.

Section Session.

Import JS WiFi.



Lemma find_fresh (l : list Timer) (u : Timer) :
  Forall (fun v => (timerId v < timerId u)%nat) l →
  List.find (fun v => Nat.eqb (timerId v) (timerId u)) (l ++ [u]) = Some u.
Proof.
  induction 1 as [|v l Hv _ IH]; cbn.
  - by rewrite Nat.eqb_refl.
  - replace (Nat.eqb (timerId v) (timerId u)) with false; [done|].
    symmetry. apply Nat.eqb_neq. lia.
Qed.

Lemma requeue_fresh (l : list Timer) (u : Timer) :
  period u = None →
  Forall (fun v => (timerId v < timerId u)%nat) l →
  requeue u (l ++ [u]) = l.
Proof.
  intros Hp Hl. unfold requeue. rewrite Hp, filter_app.
  rewrite filter_cons, filter_nil, decide_False by (by intros []).
  rewrite app_nil_r.
  induction Hl as [|v l Hv _ IH]; [done|].
  rewrite filter_cons, decide_True by lia. by rewrite IH.
Qed.

Lemma noneOverdue_snoc (t : Z) (st : State) (u : Timer) :
  noneOverdue t st = true → t ≤ due u →
  forallb (fun v => t <=? due v) (pending st ++ [u]) = true.
Proof.
  intros H Hu. unfold noneOverdue in H.
  rewrite forallb_app, H. cbn. rewrite andb_true_r. lia.
Qed.

(** Connecting through the event loop, on a platform with sockets: the
    call queues the bind callback, which then runs. *)
Lemma established_native (env : Env) (device : WiFiDevice) (st : State) :
  is_web (OS env) = false → udpModule env = true → Spec.settled st →
  Spec.established env device st
  = Some (runTask (ConnectBound (length (sockets st)) device)
            (setNextTimer (S (nextTimer st))
               (setSockets (sockets st ++ [mkSocket true false]) st))).
Proof.
  intros Hweb Hudp [Hdue Hids].
  unfold Spec.established, run, step, connectDevice. rewrite Hweb, Hudp.
  pose (u := mkTimer (nextTimer st) (clock st + 0) None
               (ConnectBound (length (sockets st)) device)).
  pose proof (find_fresh (pending st) u Hids) as Efind.
  pose proof (requeue_fresh (pending st) u eq_refl Hids) as Equeue.
  pose proof (noneOverdue_snoc _ st u Hdue ltac:(cbn; lia)) as Edue.
  unfold noneOverdue in *. subst u.
  destruct st as [ds cd sc us sq lr ss ck pd nt sn]; cbn in *.
  rewrite Z.leb_refl, Hdue. cbn.
  rewrite Z.leb_refl, Edue. cbn.
  rewrite Efind. cbn.
  replace (ck + 0 =? ck) with true by lia.
  by rewrite Equeue.
Qed.

Lemma established_web (env : Env) (device : WiFiDevice) (st : State) :
  is_web (OS env) = true → Spec.settled st →
  Spec.established env device st
  = Some (setDevices (markConnected device (withConnected device true))
            (setConnectedDevice (Some (withConnected device true)) st)).
Proof.
  intros Hweb [Hdue _].
  unfold Spec.established, run, step, connectDevice. rewrite Hweb.
  unfold noneOverdue in *.
  destruct st as [ds cd sc us sq lr ss ck pd nt sn]; cbn in *.
  by rewrite Z.leb_refl, Hdue.
Qed.




Lemma lastCommand_send (socket : nat) (flags sq ts : Z) (payload : list Z)
    (p : Z) (address : string) (outcome : SendOutcome) (st : State) :
  Spec.lastCommand
    (socketSend socket (Spec.header flags sq ts ++ payload) p address outcome st)
  = payload !! 0%nat.
Proof.
  unfold Spec.lastCommand, socketSend. cbn [sent setSent].
  by rewrite last_snoc.
Qed.

Lemma changedRegions_unset (colors : Colors.t) :
  Forall (fun c => c ≠ EmptyString) (Spec.regionsOf colors) →
  Spec.changedRegions (Spec.regionsOf colors) Spec.unset = [0; 1; 2; 3]%nat.
Proof.
  intros H. unfold Spec.regionsOf in *.
  inversion H as [|? ? H0 Ha]; subst. inversion Ha as [|? ? H1 Hb]; subst.
  inversion Hb as [|? ? H2 Hc]; subst. inversion Hc as [|? ? H3 _]; subst.
  unfold Spec.changedRegions, Spec.unset.
  rewrite !filter_cons, filter_nil. cbn [lookup list_lookup].
  rewrite !decide_True; [done|congruence..].
Qed.

(** C6, as the code has it. Connecting does not touch the sequence counter
    or the last-sent regions: they are 0 and the unset sentinel (four empty
    strings) when the provider is created, and a connect hands them on
    unchanged. Hence, while the last-sent regions are still unset, the next
    frame of four non-empty colours is a full update. *)
Theorem connect_keeps_stream_state (env : Env) (device : WiFiDevice)
    (st : State) :
  is_web (OS env) = true ∨ udpModule env = true →
  Spec.settled st →
  Spec.freshSession initial ∧
  ∃ st',
    Spec.established env device st = Some st' ∧
    seqRef st' = seqRef st ∧
    lastRegionsRef st' = lastRegionsRef st ∧
    ∀ now colors outcome,
      is_web (OS env) = false →
      lastRegionsRef st = Spec.unset →
      Forall (fun c => c ≠ EmptyString) (Spec.regionsOf colors) →
      Spec.lastCommand (sendRegionColors env now colors outcome st') = Some 1 ∧
      seqRef (sendRegionColors env now colors outcome st')
      = (seqRef st + 1) `mod` 65536.
Proof.
  intros Hcan Hsettled. split; [done|].
  destruct (is_web (OS env)) eqn:Hweb.
  - eexists. split; [by apply established_web|]. by cbn.
  - destruct Hcan as [?|Hudp]; [done|].
    set (st1 := runTask (ConnectBound (length (sockets st)) device)
                  (setNextTimer (S (nextTimer st))
                     (setSockets (sockets st ++ [mkSocket true false]) st))).
    exists st1. split; [by apply established_native|].
    assert (Spec.Connected env st1 (withConnected device true)
              (length (sockets st))) as HC by (by repeat split).
    assert (seqRef st1 = seqRef st) as Hsq by done.
    assert (lastRegionsRef st1 = lastRegionsRef st) as Hlast by done.
    split; [done|]. split; [done|].
    intros now colors outcome _ Hunset Hcolors.
    rewrite (sendRegionColors_connected env now colors outcome st1 _ _ HC).
    rewrite Hlast, Hsq, Hunset, changedRegions_unset by done.
    rewrite lastCommand_send. by cbn.
Qed.

Lemma connect_keeps_stream_state_witness :
  ∃ st',
    Spec.established Demo.native Demo.deviceA initial = Some st' ∧
    Spec.lastCommand
      (sendRegionColors Demo.native 1700000000010 Demo.sample1 Delivered st')
    = Some 1.
Proof.
  destruct (connect_keeps_stream_state Demo.native Demo.deviceA initial)
    as (_ & st' & Hrun & _ & _ & Hfull).
  - right. reflexivity.
  - split; [reflexivity|]. constructor.
  - exists st'. split; [exact Hrun|].
    apply Hfull; [reflexivity|reflexivity|].
    repeat constructor; discriminate.
Defined.

(** C6, as stated, fails: after a frame has been streamed to device A,
    connecting to device B leaves the counter at 1 and the last-sent
    regions at that frame, and the first frame to B is a delta. *)
Lemma reconnect_continues_session :
  ∃ st',
    Spec.established Demo.native Demo.deviceB Demo.streamedA = Some st' ∧
    ¬ Spec.freshSession st' ∧
    Spec.lastCommand
      (sendRegionColors Demo.native 1700000000020 Demo.sample2 Delivered st')
    = Some 2.
Proof.
  eexists. split; [reflexivity|]. split.
  - intros [Hseq _]. vm_compute in Hseq. discriminate.
  - reflexivity.
Qed.

Lemma stopScan_cancels_nothing (st : State) :
  isScanning (stopScan st) = false ∧
  pending (stopScan st) = pending st ∧
  sockets (stopScan st) = sockets st.
Proof. done. Qed.

(** The timeout of a scan cancels the broadcast, closes the socket and
    reports idle. *)
Lemma scanTimeout_cleans (interval socket : nat) (st : State) :
  let st' := runTask (ScanTimeout interval socket) st in
  isScanning st' = false ∧
  socketOpen socket st' = false ∧
  Forall (fun u => timerId u ≠ interval) (pending st').
Proof.
  cbn. split; [done|]. split.
  - unfold socketOpen. cbn. rewrite list_lookup_alter_eq.
    by destruct (sockets st !! socket).
  - apply Forall_forall. intros u Hu.
    by apply list_elem_of_filter in Hu as [? _].
Qed.

(** C7 on the code: after [stopScan] the component reports idle, yet the
    interval of the scan is still queued and its socket open, and three
    seconds into the scan the discovery request is broadcast again. *)
Theorem stopScan_keeps_broadcasting :
  run Demo.native [(0, StartScan); (0, Fire 0%nat); (1000, StopScan)] initial
  = Some Demo.stopped ∧
  isScanning Demo.stopped = false ∧
  isScanning <$> step Demo.native 3000 (Fire 1%nat) Demo.stopped = Some false ∧
  sent <$> step Demo.native 3000 (Fire 1%nat) Demo.stopped
  = Some (sent Demo.stopped ++ [Demo.discovery]) ∧
  socketOpen 0 <$> step Demo.native 3000 (Fire 1%nat) Demo.stopped = Some true.
Proof.
  split; [by vm_compute|]. split; [by vm_compute|]. split; [by vm_compute|].
  split; by vm_compute.
Qed.

End Session.

Section Commit.

Import WiFi.

Lemma lastRegions_committed_witness :
  lastRegionsRef
    (sendRegionColors Demo.browser 1700000000020 Demo.sample2 Throws
       Demo.streamedA)
  = Spec.regionsOf Demo.sample2.
Proof.
  exact (proj1 (lastRegions_committed Demo.browser 1700000000020 Demo.sample2
                  Throws Demo.streamedA (withConnected Demo.deviceA true)
                  eq_refl)).
Defined.

End Commit.

(** ** Reachable states

    What holds of every state the event loop can reach from [initial]:
    the queue is settled and the sequence counter is a 16-bit value. These
    are the side conditions of the theorems above. *)

Section Reachable.

Import JS WiFi.

Lemma timersOk_settled (st : State) : Spec.timersOk st → Spec.settled st.
Proof.
  intros H. split.
  - unfold noneOverdue. apply forallb_forall. intros u Hu.
    apply list_elem_of_In in Hu.
    unfold Spec.timersOk in H. rewrite Forall_forall in H.
    destruct (H u Hu) as [? _]. lia.
  - eapply Forall_impl; [exact H|]. by intros u (_ & ? & _).
Qed.

Lemma schedule_ok (delay : Z) (per : option Z) (k : Task) (st : State) :
  0 ≤ delay → (∀ p, per = Some p → 0 ≤ p) →
  Spec.timersOk st → Spec.timersOk (snd (schedule delay per k st)).
Proof.
  intros Hd Hp H. unfold Spec.timersOk, schedule in *. cbn.
  apply Forall_app. split.
  - eapply Forall_impl; [exact H|]. intros u (? & ? & ?).
    repeat split; [done|lia|done].
  - constructor; [|constructor]. repeat split; cbn; [lia|lia|done].
Qed.

Lemma filter_ok (P : Timer → Prop) `{Hdec : !∀ u, Decision (P u)} (st : State) :
  Spec.timersOk st → Spec.timersOk (setPending (filter P (pending st)) st).
Proof.
  unfold Spec.timersOk. cbn. intros H. apply Forall_forall. intros u Hu.
  apply list_elem_of_filter in Hu as [_ Hu].
  rewrite Forall_forall in H. by apply H.
Qed.

Lemma runTask_ok (k : Task) (st : State) : Spec.timersOk st → Spec.timersOk (runTask k st).
Proof.
  intros H. destruct k as [|s|s|i s|s d]; cbn [runTask]; try done.
  - unfold setInterval, setTimeout.
    set (st1 := sendDiscovery s st).
    assert (Spec.timersOk st1) as H1 by done.
    pose proof (schedule_ok 3000 (Some 3000) (SendDiscovery s) st1
                  ltac:(lia) ltac:(intros ? [= <-]; lia) H1) as H2.
    destruct (schedule 3000 (Some 3000) (SendDiscovery s) st1) as [i st2].
    cbn [snd] in H2.
    by apply (schedule_ok 30000 None).
  - by apply (filter_ok (fun t => timerId t ≠ i)) in H.
Qed.

Lemma requeue_ok (u : Timer) (st : State) :
  u ∈ pending st → Spec.timersOk st →
  Spec.timersOk (setPending (requeue u (pending st)) st).
Proof.
  intros Hu H. unfold requeue.
  destruct (period u) as [p|] eqn:Hp.
  - unfold Spec.timersOk in *. cbn. rewrite Forall_forall in H.
    apply Forall_forall. intros v Hv.
    apply list_elem_of_fmap in Hv as (w & -> & Hw).
    destruct (H w Hw) as (Hd & Hi & Hper).
    destruct (Nat.eqb (timerId w) (timerId u)); [|done].
    repeat split; cbn; [|done|done].
    destruct (H u Hu) as (_ & _ & Hpu). specialize (Hpu p Hp). lia.
  - by apply (filter_ok (fun v => timerId v ≠ timerId u)).
Qed.

Lemma sendRegionColors_frame (env : Env) (now : Z) (colors : Colors.t)
    (outcome : SendOutcome) (st : State) :
  clock (sendRegionColors env now colors outcome st) = clock st ∧
  nextTimer (sendRegionColors env now colors outcome st) = nextTimer st ∧
  pending (sendRegionColors env now colors outcome st) = pending st ∧
  (0 ≤ seqRef st < 65536 →
   0 ≤ seqRef (sendRegionColors env now colors outcome st) < 65536).
Proof.
  unfold sendRegionColors.
  destruct (connectedDevice st); [|done].
  destruct (is_web (OS env)); [done|]. cbn [udpSocket setLastRegionsRef].
  destruct (udpSocket st); [|done].
  destruct (encodeHeader _ _ _ _); cbn;
    (split; [done|split; [done|split; [done|]]];
     intros _; apply bitand_0xffff_range).
Qed.

Lemma handlers_ok (env : Env) (st : State) :
  Spec.timersOk st →
  Spec.timersOk (startScan env st) ∧
  (∀ device, Spec.timersOk (connectDevice env device st)) ∧
  Spec.timersOk (disconnectDevice env st) ∧
  (∀ color outcome, Spec.timersOk (sendColor env color outcome st)) ∧
  (∀ msg address, Spec.timersOk (onMessage msg address st)).
Proof.
  intros H. repeat split.
  - unfold startScan, mockScan, setTimeout.
    destruct (is_web (OS env));
      [by apply (schedule_ok 1500 None)|].
    destruct (udpModule env); cbn [negb];
      [|by apply (schedule_ok 1500 None)].
    destruct (requestWiFiPermissions env); cbn [negb]; [|done].
    cbn [createSocket]. unfold listen.
    match goal with |- Spec.timersOk (setSockets _ ?X) => change (Spec.timersOk X) end.
    by apply (schedule_ok 0 None).
  - intros device. unfold connectDevice.
    destruct (is_web (OS env)); [done|].
    destruct (udpModule env); cbn [negb]; [|done].
    cbn [createSocket].
    by apply (schedule_ok 0 None).
  - unfold disconnectDevice.
    destruct (udpSocket st), (is_web (OS env)); cbn;
      by destruct (connectedDevice st).
  - intros color outcome. unfold sendColor.
    destruct (connectedDevice st); [|done].
    destruct (is_web (OS env)); [done|]. by destruct (udpSocket st).
  - intros msg address. unfold onMessage.
    destruct msg; [|done]. by case_bool_decide.
Qed.

Lemma handlers_seqRef (env : Env) (st : State) :
  seqRef (startScan env st) = seqRef st ∧
  (∀ device, seqRef (connectDevice env device st) = seqRef st) ∧
  seqRef (disconnectDevice env st) = seqRef st ∧
  (∀ color outcome, seqRef (sendColor env color outcome st) = seqRef st) ∧
  (∀ msg address, seqRef (onMessage msg address st) = seqRef st) ∧
  (∀ k, seqRef (runTask k st) = seqRef st).
Proof.
  repeat split.
  - unfold startScan, mockScan.
    by destruct (is_web (OS env)), (udpModule env),
         (requestWiFiPermissions env).
  - intros device. unfold connectDevice.
    by destruct (is_web (OS env)), (udpModule env).
  - unfold disconnectDevice.
    destruct (udpSocket st), (is_web (OS env)); cbn;
      by destruct (connectedDevice st).
  - intros color outcome. unfold sendColor.
    destruct (connectedDevice st); [|done].
    destruct (is_web (OS env)); [done|]. by destruct (udpSocket st).
  - intros msg address. unfold onMessage.
    destruct msg; [|done]. by case_bool_decide.
  - by intros [].
Qed.

Lemma step_ok (env : Env) (t : Z) (e : Event) (st st' : State) :
  Spec.reachableOk st → step env t e st = Some st' → Spec.reachableOk st'.
Proof.
  intros [H Hseq]. unfold step.
  destruct ((clock st <=? t) && noneOverdue t st) eqn:G; cbn [negb]; [|done].
  apply andb_true_iff in G as [Hclock Hdue].
  assert (Spec.timersOk (setClock t st)) as Ht.
  { unfold Spec.timersOk in *. cbn. unfold noneOverdue in Hdue.
    rewrite forallb_forall in Hdue. rewrite Forall_forall in H.
    apply Forall_forall. intros u Hu. destruct (H u Hu) as (_ & ? & ?).
    repeat split; [|done..].
    apply list_elem_of_In, Hdue in Hu. lia. }
  assert (0 ≤ seqRef (setClock t st) < 65536) as Hs by done.
  clear H Hseq Hclock Hdue. revert Ht Hs.
  generalize (setClock t st). clear st. intros st Ht Hs.
  destruct (handlers_ok env st Ht) as (K1 & K2 & K3 & K4 & K5).
  destruct (handlers_seqRef env st) as (S1 & S2 & S3 & S4 & S5 & S6).
  destruct e as [| |device| |color outcome|colors outcome|socket msg address|h].
  - intros [= <-]. split; [done|congruence].
  - intros [= <-]. by split.
  - intros [= <-]. split; [done|]. by rewrite S2.
  - intros [= <-]. split; [done|congruence].
  - intros [= <-]. split; [done|]. by rewrite S4.
  - intros [= <-].
    destruct (sendRegionColors_frame env (epoch env + t) colors outcome st)
      as (E1 & E2 & E3 & E4).
    split; [|by apply E4].
    unfold Spec.timersOk. by rewrite E1, E2, E3.
  - destruct (socketListening socket st); [|done].
    intros [= <-]. split; [done|]. by rewrite S5.
  - destruct (find _ _) as [u|] eqn:F; [|done].
    destruct (due u =? t); [|done]. intros [= <-].
    apply find_some in F as [F _]. apply list_elem_of_In in F.
    split.
    + by apply runTask_ok, requeue_ok.
    + destruct (handlers_seqRef env (setPending (requeue u (pending st)) st))
        as (_ & _ & _ & _ & _ & R).
      by rewrite R.
Qed.

Lemma run_ok (env : Env) (trace : list (Z * Event)) (st st' : State) :
  Spec.reachableOk st → run env trace st = Some st' → Spec.reachableOk st'.
Proof.
  revert st. induction trace as [|[t e] trace IH]; intros st Hok; cbn [run].
  - by intros [= <-].
  - destruct (step env t e st) as [st1|] eqn:E; [|done].
    apply IH. by eapply step_ok.
Qed.

(** Every state reached from the initial one has a settled queue and a
    16-bit sequence counter. *)
Lemma reachable_ok (env : Env) (trace : list (Z * Event)) (st : State) :
  run env trace initial = Some st →
  Spec.settled st ∧ 0 ≤ seqRef st < 65536.
Proof.
  intros Hrun.
  assert (Spec.reachableOk initial) as H0.
  { split; [constructor|]. cbn. lia. }
  destruct (run_ok env trace initial st H0 Hrun) as [Ht Hs].
  split; [by apply timersOk_settled|done].
Qed.

End Reachable.

(** ** Further properties of the colour conversion and of sending *)

Section Colours.

Import JS WiFi.

Lemma hexValue_range (c : ascii) :
  Spec.isHexDigit c = true → 0 ≤ Spec.hexValue c < 16.
Proof.
  intros H. destruct (hex_digit_facts c H) as (_ & _ & _ & _ & _ & _ & _ & L & P).
  lia.
Qed.

(** X1. A colour that is an optional ['#'] followed by six hexadecimal
    digits, in either letter case, converts to the values of its three
    digit pairs, most significant digit first. Each value is between 0 and
    255, so nothing is truncated when the bytes are written. *)
Theorem hexToRgbBytes_wellFormed (hex : string) :
  Spec.wellFormedColor hex = true →
  ∃ c0 c1 c2 c3 c4 c5 : ascii,
    (chars hex = [c0; c1; c2; c3; c4; c5] ∨
     chars hex = "#"%char :: [c0; c1; c2; c3; c4; c5]) ∧
    hexToRgbBytes hex
    = [ Num (16 * Spec.hexValue c0 + Spec.hexValue c1);
        Num (16 * Spec.hexValue c2 + Spec.hexValue c3);
        Num (16 * Spec.hexValue c4 + Spec.hexValue c5) ] ∧
    Spec.rgb hex
    = [ 16 * Spec.hexValue c0 + Spec.hexValue c1;
        16 * Spec.hexValue c2 + Spec.hexValue c3;
        16 * Spec.hexValue c4 + Spec.hexValue c5 ] ∧
    Forall (fun b => 0 ≤ b ≤ 255) (Spec.rgb hex).
Proof.
  intros H. unfold Spec.wellFormedColor in H.
  assert (∃ (hash : bool) c0 c1 c2 c3 c4 c5,
            chars hex = (if hash then ["#"%char] else []) ++ [c0; c1; c2; c3; c4; c5] ∧
            forallb Spec.isHexDigit [c0; c1; c2; c3; c4; c5] = true)
    as (hash & c0 & c1 & c2 & c3 & c4 & c5 & Hchars & Hhex).
  { destruct (chars hex) as [|c l]; [done|].
    destruct (Ascii.eqb c "#") eqn:E.
    - apply Ascii.eqb_eq in E. subst c.
      apply andb_true_iff in H as [Hlen Hall].
      destruct l as [|c0 [|c1 [|c2 [|c3 [|c4 [|c5 [|? ?]]]]]]]; try done.
      by exists true, c0, c1, c2, c3, c4, c5.
    - apply andb_true_iff in H as [Hlen Hall].
      destruct l as [|c1 [|c2 [|c3 [|c4 [|c5 [|? ?]]]]]]; try done.
      by exists false, c, c1, c2, c3, c4, c5. }
  exists c0, c1, c2, c3, c4, c5.
  assert (hexToRgbBytes hex
          = [ Num (16 * Spec.hexValue c0 + Spec.hexValue c1);
              Num (16 * Spec.hexValue c2 + Spec.hexValue c3);
              Num (16 * Spec.hexValue c4 + Spec.hexValue c5) ]) as E.
  { rewrite <- (string_of_list_ascii_of_string hex).
    fold (chars hex). rewrite Hchars.
    by apply hexToRgbBytes_digits. }
  cbn [forallb] in Hhex. rewrite !andb_true_iff in Hhex.
  destruct Hhex as (H0 & H1 & H2 & H3 & H4 & H5 & _).
  pose proof (hexValue_range c0 H0). pose proof (hexValue_range c1 H1).
  pose proof (hexValue_range c2 H2). pose proof (hexValue_range c3 H3).
  pose proof (hexValue_range c4 H4). pose proof (hexValue_range c5 H5).
  assert (Spec.rgb hex
          = [ 16 * Spec.hexValue c0 + Spec.hexValue c1;
              16 * Spec.hexValue c2 + Spec.hexValue c3;
              16 * Spec.hexValue c4 + Spec.hexValue c5 ]) as Ergb.
  { unfold Spec.rgb. rewrite E. cbn [Buffer.from map Buffer.byte_of].
    by rewrite !Z.mod_small by lia. }
  split; [destruct hash; [by right|by left]|].
  split; [done|]. split; [done|].
  rewrite Ergb. repeat constructor; lia.
Qed.

Lemma hexToRgbBytes_wellFormed_witness :
  ∃ c0 c1 c2 c3 c4 c5 : ascii,
    hexToRgbBytes "#1020fF"
    = [ Num (16 * Spec.hexValue c0 + Spec.hexValue c1);
        Num (16 * Spec.hexValue c2 + Spec.hexValue c3);
        Num (16 * Spec.hexValue c4 + Spec.hexValue c5) ].
Proof.
  destruct (hexToRgbBytes_wellFormed "#1020fF" eq_refl)
    as (c0 & c1 & c2 & c3 & c4 & c5 & _ & E & _).
  by exists c0, c1, c2, c3, c4, c5.
Defined.

Lemma sendColor_connected (env : Env) (color : string)
    (outcome : SendOutcome) (st : State) (device : WiFiDevice) (socket : nat) :
  Spec.Connected env st device socket →
  sendColor env color outcome st
  = setSent (sent st ++ [mkDatagram socket (0 :: Spec.rgb color) (port device)
                           (ipAddress device) outcome]) st.
Proof.
  intros (Hdev & Hweb & Hsock).
  unfold sendColor. rewrite Hdev, Hweb, Hsock.
  unfold socketSend. do 4 f_equal.
  change (Buffer.from (Num 0 :: ?l)) with (0 :: Buffer.from l). f_equal.
  unfold Spec.rgb. f_equal. apply channels.
Qed.

(** X2. In a session [sendColor] hands one 4-byte packet [0, R, G, B] to
    the socket, addressed to the connected device, and changes nothing
    else: the sequence counter and the last-sent regions of the region
    stream are as before. R, G, B are the values of the three digit pairs
    of the colour, and 0, 0, 0 when the colour is malformed. *)
Theorem sendColor_packet (env : Env) (color : string) (outcome : SendOutcome)
    (st : State) (device : WiFiDevice) (socket : nat) :
  Spec.Connected env st device socket →
  sendColor env color outcome st
  = setSent (sent st ++ [mkDatagram socket (0 :: Spec.triple color) (port device)
                           (ipAddress device) outcome]) st ∧
  length (0 :: Spec.triple color) = 4%nat ∧
  Forall (fun b => 0 ≤ b ≤ 255) (0 :: Spec.triple color).
Proof.
  intros HC. rewrite <- rgb_triple.
  split; [by apply sendColor_connected|split].
  - cbn [length]. by rewrite rgb_length.
  - constructor; [lia|]. eapply Forall_impl; [apply rgb_range|].
    cbn. lia.
Qed.

Lemma sendColor_packet_witness :
  sent (sendColor Demo.native "#ff8000" Delivered Demo.sessionA)
  = sent Demo.sessionA
    ++ [mkDatagram 0 [0; 255; 128; 0] 7777 "192.168.1.20" Delivered] ∧
  sent (sendColor Demo.native "orange" Delivered Demo.sessionA)
  = sent Demo.sessionA
    ++ [mkDatagram 0 [0; 0; 0; 0] 7777 "192.168.1.20" Delivered].
Proof.
  assert (Spec.Connected Demo.native Demo.sessionA
            (withConnected Demo.deviceA true) 0) as HC.
  { repeat split; reflexivity. }
  split.
  - destruct (sendColor_packet Demo.native "#ff8000" Delivered Demo.sessionA
                _ _ HC) as [E _].
    rewrite E. reflexivity.
  - destruct (sendColor_packet Demo.native "orange" Delivered Demo.sessionA
                _ _ HC) as [E _].
    rewrite E. reflexivity.
Defined.

(** X3. Without a connected device both senders return at once and leave
    the whole state as it is; with a device but on the web build or
    without a socket, [sendColor] still changes nothing and
    [sendRegionColors] changes only the last-sent regions. *)
Theorem send_without_session (env : Env) (now : Z) (color : string)
    (colors : Colors.t) (outcome : SendOutcome) (st : State) :
  connectedDevice st = None ∨ is_web (OS env) = true ∨ udpSocket st = None →
  sendColor env color outcome st = st ∧
  (connectedDevice st = None → sendRegionColors env now colors outcome st = st) ∧
  (connectedDevice st ≠ None →
   sendRegionColors env now colors outcome st
   = setLastRegionsRef (Spec.regionsOf colors) st).
Proof.
  intros H. unfold sendColor, sendRegionColors.
  destruct (connectedDevice st) as [device|]; [|done].
  destruct (is_web (OS env)); [done|].
  cbn [udpSocket setLastRegionsRef].
  destruct (udpSocket st); [|done].
  by destruct H as [?|[?|?]].
Qed.

Lemma send_without_session_witness :
  connectedDevice initial = None ∧
  sendColor Demo.native "#ff8000" Delivered initial = initial ∧
  sendRegionColors Demo.native 1700000000010 Demo.sample1 Delivered initial
  = initial.
Proof.
  destruct (send_without_session Demo.native 1700000000010 "#ff8000"
              Demo.sample1 Delivered initial (or_introl eq_refl))
    as (Hcolor & Hregions & _).
  split; [reflexivity|]. split; [exact Hcolor|exact (Hregions eq_refl)].
Defined.

End Colours.

(** ** Further properties of connecting and disconnecting *)

Section Disconnect.

Import JS WiFi.

Lemma withConnected_false_id (d : WiFiDevice) :
  isConnected d = false → withConnected d false = d.
Proof. destruct d as [? ? ? ? ? c]; cbn. by intros ->. Qed.

(** X4. [disconnectDevice] clears the connected device, marks every
    registry entry with its identifier as not connected and touches no
    other entry; off the web build it also closes the session's socket,
    clears it, and leaves every other socket as it was. Afterwards neither
    sender hands anything to a socket. Calling it again changes nothing. *)
Theorem disconnect_releases (env : Env) (st : State) :
  let st' := disconnectDevice env st in
  connectedDevice st' = None ∧
  (is_web (OS env) = false →
   udpSocket st' = None ∧
   ∀ s, udpSocket st = Some s →
        socketOpen s st' = false ∧
        ∀ s', s' ≠ s → sockets st' !! s' = sockets st !! s') ∧
  (∀ c, connectedDevice st = Some c →
        devices st'
        = map (fun d => if String.eqb (id d) (id c)
                        then withConnected d false else d) (devices st)) ∧
  (connectedDevice st = None → devices st' = devices st) ∧
  (∀ now color colors outcome,
     sent (sendColor env color outcome st') = sent st' ∧
     sent (sendRegionColors env now colors outcome st') = sent st') ∧
  disconnectDevice env st' = st'.
Proof.
  cbn zeta. unfold disconnectDevice, sendColor, sendRegionColors, socketOpen.
  destruct st as [ds cd sc us sq lr ss ck pd nt sn].
  destruct us as [s|], (is_web (OS env)) eqn:Hweb, cd as [c|]; cbn;
    rewrite ?Hweb; cbn;
    (split; [done|]);
    (split;
     [first
        [ done
        | intros _; split; [done|];
          first
            [ by intros ? [=]
            | intros s0 [= <-]; split;
              [ rewrite list_lookup_alter_eq; by destruct (ss !! _)
              | intros s' Hne; by rewrite list_lookup_alter_ne ] ] ]
     |]);
    (split; [by intros ? [= <-]|]); split; done.
Qed.

(** X5. When the registry holds the device under an identifier of its own
    and marks nothing connected, connecting changes only connection flags:
    the entry of the device, and no other, becomes connected. Disconnecting
    then gives the registry back exactly, closes the socket the connect
    opened, and leaves no device and no socket in the session. *)
Theorem connect_disconnect_round_trip (env : Env) (device : WiFiDevice)
    (st : State) :
  is_web (OS env) = true ∨ udpModule env = true →
  Spec.settled st →
  device ∈ devices st →
  NoDup (id <$> devices st) →
  Forall (fun d => isConnected d = false) (devices st) →
  ∃ st',
    Spec.established env device st = Some st' ∧
    devices st'
    = map (fun d => if String.eqb (id d) (id device)
                    then withConnected d true else d) (devices st) ∧
    devices (disconnectDevice env st') = devices st ∧
    connectedDevice (disconnectDevice env st') = None ∧
    (is_web (OS env) = false →
     udpSocket st' = Some (length (sockets st)) ∧
     socketOpen (length (sockets st)) st' = true ∧
     udpSocket (disconnectDevice env st') = None ∧
     socketOpen (length (sockets st)) (disconnectDevice env st') = false).
Proof.
  intros Hcan Hsettled Hin Hids Hflags.
  rewrite Forall_forall in Hflags.
  assert (map (fun d => if String.eqb (id d) (id device)
                        then withConnected device true
                        else withConnected d false) (devices st)
          = map (fun d => if String.eqb (id d) (id device)
                          then withConnected d true else d) (devices st))
    as Hconnect.
  { apply map_ext_in. intros d Hd. apply list_elem_of_In in Hd.
    destruct (String.eqb_spec (id d) (id device)) as [Hid|Hid].
    - assert (d = device) as ->; [|done].
      apply list_elem_of_lookup in Hd as [i Hi].
      apply list_elem_of_lookup in Hin as [j Hj].
      assert (i = j) as ->; [|congruence].
      eapply (NoDup_lookup (id <$> devices st) i j (id device)); [done| |].
      + by rewrite list_lookup_fmap, Hi; cbn; rewrite Hid.
      + by rewrite list_lookup_fmap, Hj.
    - by apply withConnected_false_id, Hflags. }
  assert (map (fun d => if String.eqb (id d) (id (withConnected device true))
                        then withConnected d false else d)
            (map (fun d => if String.eqb (id d) (id device)
                           then withConnected d true else d) (devices st))
          = devices st) as Hback.
  { rewrite map_map. rewrite <- (map_id (devices st)) at 2.
    apply map_ext_in. intros d Hd. apply list_elem_of_In in Hd.
    specialize (Hflags d Hd). cbn [id withConnected].
    destruct (String.eqb_spec (id d) (id device)) as [Hid|Hid].
    - cbn [id withConnected]. rewrite Hid, String.eqb_refl.
      destruct d; cbn in *. by rewrite Hflags.
    - by apply String.eqb_neq in Hid as ->. }
  destruct (is_web (OS env)) eqn:Hweb.
  - eexists. split; [by apply established_web|].
    unfold disconnectDevice, markConnected. rewrite Hweb.
    destruct st as [ds cd sc us sq lr ss ck pd nt sn]. cbn in *.
    destruct us; cbn; by rewrite Hconnect, Hback.
  - destruct Hcan as [?|Hudp]; [done|].
    eexists. split; [by apply established_native|].
    unfold disconnectDevice, markConnected, socketOpen. rewrite Hweb.
    destruct st as [ds cd sc us sq lr ss ck pd nt sn]. cbn in *.
    rewrite Hconnect, Hback.
    split; [done|]. split; [done|]. split; [done|]. intros _.
    split; [done|].
    rewrite list_lookup_alter_eq, lookup_app_r, Nat.sub_diag by lia.
    done.
Qed.

Lemma connect_disconnect_round_trip_witness :
  ∃ st',
    Spec.established Demo.native
      (mkDevice "192.168.1.20" "ESP LED (192.168.1.20)" "192.168.1.20" 7777
         (Some (-40)) false) Demo.scanned = Some st' ∧
    devices (disconnectDevice Demo.native st') = devices Demo.scanned.
Proof.
  destruct (connect_disconnect_round_trip Demo.native
              (mkDevice "192.168.1.20" "ESP LED (192.168.1.20)" "192.168.1.20"
                 7777 (Some (-40)) false) Demo.scanned)
    as (st' & Hrun & _ & Hback & _).
  - right. reflexivity.
  - split; [reflexivity|]. constructor.
  - vm_compute. apply list_elem_of_further, list_elem_of_here.
  - vm_compute. repeat constructor; rewrite ?elem_of_cons, ?elem_of_nil;
      intros H; repeat destruct H as [H|H]; try discriminate H; done.
  - repeat constructor.
  - by exists st'.
Defined.

End Disconnect.

(** ** Further properties of the discovery registry *)

Section Registry.

Import JS WiFi.

Lemma find_first {A} (P : A → bool) (l : list A) (i : nat) (x : A) :
  l !! i = Some x → P x = true →
  (∀ (j : nat) (y : A), (j < i)%nat → l !! j = Some y → P y = false) →
  List.find P l = Some x.
Proof.
  revert i. induction l as [|a l IH]; intros [|i] Hx Hp Hmin; try done.
  - cbn in Hx. injection Hx as ->. cbn. by rewrite Hp.
  - cbn. rewrite (Hmin 0%nat a) by (done || lia).
    apply (IH i); [done|done|].
    intros j y Hj Hy. apply (Hmin (S j) y); [lia|done].
Qed.

Lemma find_insert_first {A} (P : A → bool) (l : list A) (i : nat) (x x' : A) :
  l !! i = Some x → P x' = true →
  (∀ (j : nat) (y : A), (j < i)%nat → l !! j = Some y → P y = false) →
  List.find P (<[i := x']> l) = Some x'.
Proof.
  intros Hx Hp Hmin. apply (find_first P _ i).
  - apply list_lookup_insert_eq. by eapply lookup_lt_Some.
  - done.
  - intros j y Hj Hy. rewrite list_lookup_insert_ne in Hy by lia.
    by apply (Hmin j).
Qed.

Lemma find_insert_other {A} (Q : A → bool) (l : list A) (i : nat) (x x' : A) :
  l !! i = Some x → Q x = false → Q x' = false →
  List.find Q (<[i := x']> l) = List.find Q l.
Proof.
  revert i. induction l as [|a l IH]; intros [|i] Hx Hq Hq'; try done.
  - cbn in Hx. injection Hx as ->. cbn. by rewrite Hq, Hq'.
  - cbn. destruct (Q a); [done|]. by apply IH.
Qed.

Lemma find_snoc {A} (P : A → bool) (l : list A) (x : A) :
  List.find P (l ++ [x])
  = match List.find P l with
    | Some y => Some y
    | None => if P x then Some x else None
    end.
Proof.
  induction l as [|a l IH]; cbn; [done|]. by destruct (P a).
Qed.

Lemma find_absent {A} (P : A → bool) (l : list A) :
  (∀ x, x ∈ l → P x = false) → List.find P l = None.
Proof.
  induction l as [|a l IH]; intros H; cbn; [done|].
  rewrite (H a) by apply list_elem_of_here.
  apply IH. intros x Hx. apply H. by apply list_elem_of_further.
Qed.

(** How the entry of [address] moves when one datagram from [sender] is
    handled. *)
Lemma entryOf_onMessage (address sender : string) (msg : option Response)
    (st : State) :
  Spec.entryOf address (devices (onMessage msg sender st))
  = match Spec.acceptedFrom address (msg, sender) with
    | Some r =>
        Some match Spec.entryOf address (devices st) with
             | Some d => withRssi d (r_rssi r)
             | None => deviceOfResponse r address
             end
    | None => Spec.entryOf address (devices st)
    end.
Proof.
  unfold Spec.acceptedFrom, onMessage. cbn [fst snd].
  destruct msg as [r|]; [|done].
  case_bool_decide as Ht; cbn [andb]; [|done].
  cbn [devices setDevices]. unfold Spec.entryOf.
  set (P := fun d => String.eqb (ipAddress d) address).
  destruct (registerDevice_cases (deviceOfResponse r sender) (devices st))
    as [(i & old & Hold & Hsame & Hmin & E)|[Hfresh E]]; rewrite E;
    cbn [ipAddress deviceOfResponse rssi] in *.
  - destruct (String.eqb_spec sender address) as [->|Hne].
    + assert (∀ (j : nat) (y : WiFiDevice),
                (j < i)%nat → devices st !! j = Some y → P y = false) as Hmin'.
      { intros j y Hj Hy. apply String.eqb_neq. by apply (Hmin j). }
      rewrite (find_first P (devices st) i old),
        (find_insert_first P (devices st) i old
           (withRssi old (r_rssi r))); try done.
      * unfold P. cbn. by apply String.eqb_eq.
      * unfold P. by apply String.eqb_eq.
    + apply (find_insert_other P _ i old); [done| |];
        unfold P; cbn; apply String.eqb_neq; congruence.
  - rewrite find_snoc.
    destruct (String.eqb_spec sender address) as [->|Hne].
    + rewrite find_absent.
      * unfold P. cbn. by rewrite String.eqb_refl.
      * intros x Hx. apply String.eqb_neq. by apply Hfresh.
    + unfold P at 2. cbn [ipAddress deviceOfResponse].
      apply String.eqb_neq in Hne. rewrite Hne.
      by destruct (find P (devices st)).
Qed.

Lemma receive_app (pre post : list (option Response * string)) (st : State) :
  Spec.receive (pre ++ post) st = Spec.receive post (Spec.receive pre st).
Proof. unfold Spec.receive. apply fold_left_app. Qed.

(** While no accepted datagram comes from [address], its entry stays. *)
Lemma entryOf_receive_others (address : string)
    (msgs : list (option Response * string)) (st : State) :
  Forall (fun m => Spec.acceptedFrom address m = None) msgs →
  Spec.entryOf address (devices (Spec.receive msgs st))
  = Spec.entryOf address (devices st).
Proof.
  intros H. revert st.
  induction H as [|[msg sender] msgs Hm _ IH]; intros st; [done|].
  cbn [Spec.receive fold_left fst snd]. fold (Spec.receive msgs).
  rewrite IH, entryOf_onMessage. by rewrite Hm.
Qed.

(** Accepted datagrams from [address] keep what the entry has apart from
    the signal strength. *)
Lemma entryOf_receive_identity (address : string)
    (msgs : list (option Response * string)) (st : State) (d : WiFiDevice) :
  Spec.entryOf address (devices st) = Some d →
  ∃ d',
    Spec.entryOf address (devices (Spec.receive msgs st)) = Some d' ∧
    id d' = id d ∧ name d' = name d ∧ ipAddress d' = ipAddress d ∧
    port d' = port d ∧ isConnected d' = isConnected d.
Proof.
  revert st d. induction msgs as [|[msg sender] msgs IH]; intros st d Hd.
  - by exists d.
  - cbn [Spec.receive fold_left fst snd]. fold (Spec.receive msgs).
    pose proof (entryOf_onMessage address sender msg st) as E.
    rewrite Hd in E.
    destruct (Spec.acceptedFrom address (msg, sender)) as [r|].
    + destruct (IH _ _ E) as (d' & Hd' & ?). exists d'. by split.
    + destruct (IH _ _ E) as (d' & Hd' & ?). exists d'. by split.
Qed.

(** X6. Over a whole scan the signal strength of an address is that of the
    latest accepted response from it, exactly as that response carries it:
    a response without one leaves the entry without one, whatever was
    recorded before. Once such a response has been handled, datagrams from
    other addresses, malformed ones and ones with another discriminator do
    not change it. *)
Theorem latest_rssi_wins (address : string) (r : Response)
    (pre post : list (option Response * string)) (st : State) :
  r_type r = Some "ESP_LED_DEVICE"%string →
  Forall (fun m => Spec.acceptedFrom address m = None) post →
  ∃ d,
    Spec.entryOf address
      (devices (Spec.receive (pre ++ (Some r, address) :: post) st)) = Some d ∧
    ipAddress d = address ∧
    rssi d = r_rssi r.
Proof.
  intros Ht Hpost.
  rewrite receive_app. cbn [Spec.receive fold_left fst snd].
  fold (Spec.receive post). fold (Spec.receive pre st).
  rewrite entryOf_receive_others by done.
  rewrite entryOf_onMessage. unfold Spec.acceptedFrom. cbn [fst snd].
  rewrite bool_decide_eq_true_2, String.eqb_refl by done. cbn [andb].
  eexists. split; [done|].
  destruct (Spec.entryOf address (devices (Spec.receive pre st))) as [d|] eqn:E.
  - split; [|done]. cbn. unfold Spec.entryOf in E.
    apply find_some in E as [_ E]. by apply String.eqb_eq.
  - done.
Qed.

Lemma latest_rssi_wins_witness :
  (∃ d,
     Spec.entryOf "192.168.1.21"
       (devices
          (Spec.receive
             ([(Some (Demo.response (Some (-70))), "192.168.1.21"%string)]
              ++ (Some (Demo.response (Some (-52))), "192.168.1.21"%string)
                 :: [(None, "192.168.1.21"%string);
                     (Some (Demo.response (Some (-40))), "192.168.1.20"%string)])
             initial)) = Some d ∧
     rssi d = Some (-52)) ∧
  (∃ d,
     Spec.entryOf "192.168.1.21"
       (devices
          (Spec.receive
             ([(Some (Demo.response (Some (-70))), "192.168.1.21"%string)]
              ++ (Some (Demo.response None), "192.168.1.21"%string) :: [])
             initial)) = Some d ∧
     rssi d = None).
Proof.
  split.
  - destruct (latest_rssi_wins "192.168.1.21" (Demo.response (Some (-52)))
                [(Some (Demo.response (Some (-70))), "192.168.1.21"%string)]
                [(None, "192.168.1.21"%string);
                 (Some (Demo.response (Some (-40))), "192.168.1.20"%string)]
                initial eq_refl)
      as (d & Hd & _ & Hr).
    + repeat constructor.
    + by exists d.
  - destruct (latest_rssi_wins "192.168.1.21" (Demo.response None)
                [(Some (Demo.response (Some (-70))), "192.168.1.21"%string)]
                [] initial eq_refl)
      as (d & Hd & _ & Hr).
    + constructor.
    + by exists d.
Defined.

(** X7. The first accepted response from an address decides the entry for
    good: identifier, name and port come from it, with the sender address
    standing in for a missing or empty identifier, a generated label for a
    missing or empty name, and 7777 for a missing or zero port; the entry
    starts not connected. Later responses from the address refresh the
    signal strength only. *)
Theorem first_response_names_device (address : string) (r : Response)
    (pre post : list (option Response * string)) (st : State) :
  r_type r = Some "ESP_LED_DEVICE"%string →
  Spec.entryOf address (devices st) = None →
  Forall (fun m => Spec.acceptedFrom address m = None) pre →
  ∃ d,
    Spec.entryOf address
      (devices (Spec.receive (pre ++ (Some r, address) :: post) st)) = Some d ∧
    ipAddress d = address ∧
    isConnected d = false ∧
    id d = match r_id r with
           | Some i => if String.eqb i EmptyString then address else i
           | None => address
           end ∧
    name d = match r_name r with
             | Some n =>
                 if String.eqb n EmptyString
                 then ("ESP LED (" ++ address ++ ")")%string else n
             | None => ("ESP LED (" ++ address ++ ")")%string
             end ∧
    port d = match r_port r with
             | Some p => if p =? 0 then 7777 else p
             | None => 7777
             end.
Proof.
  intros Ht Hnone Hpre.
  rewrite receive_app. cbn [Spec.receive fold_left fst snd].
  fold (Spec.receive post). fold (Spec.receive pre st).
  assert (Spec.entryOf address
            (devices (onMessage (Some r) address (Spec.receive pre st)))
          = Some (deviceOfResponse r address)) as E.
  { rewrite entryOf_onMessage. unfold Spec.acceptedFrom. cbn [fst snd].
    rewrite bool_decide_eq_true_2, String.eqb_refl by done. cbn [andb].
    by rewrite entryOf_receive_others, Hnone by done. }
  destruct (entryOf_receive_identity address post _ _ E)
    as (d & Hd & Hid & Hname & Haddr & Hport & Hconn).
  exists d. split; [done|].
  rewrite Hid, Hname, Haddr, Hport, Hconn. done.
Qed.

Lemma first_response_names_device_witness :
  ∃ d,
    Spec.entryOf "192.168.1.30"
      (devices
         (Spec.receive
            ([] ++ (Some (mkResponse (Some "ESP_LED_DEVICE"%string)
                            (Some EmptyString) None (Some 0) None),
                    "192.168.1.30"%string)
                :: [(Some (mkResponse (Some "ESP_LED_DEVICE"%string)
                             (Some "late"%string) (Some "Late"%string)
                             (Some 9000) (Some (-30))),
                     "192.168.1.30"%string)])
            Demo.scanned)) = Some d ∧
    id d = "192.168.1.30"%string ∧ port d = 7777.
Proof.
  destruct (first_response_names_device "192.168.1.30"
              (mkResponse (Some "ESP_LED_DEVICE"%string)
                 (Some EmptyString) None (Some 0) None)
              []
              [(Some (mkResponse (Some "ESP_LED_DEVICE"%string)
                        (Some "late"%string) (Some "Late"%string)
                        (Some 9000) (Some (-30))),
                "192.168.1.30"%string)]
              Demo.scanned eq_refl eq_refl)
    as (d & Hd & _ & _ & Hid & _ & Hport).
  - constructor.
  - by exists d.
Defined.

End Registry.

Section RegistryGrowth.

Import JS WiFi.

(** Two records that differ at most in signal strength. *)
Lemma registerDevice_keeps (new : WiFiDevice) (prev : list WiFiDevice) :
  (length prev ≤ length (registerDevice new prev) ≤ S (length prev))%nat ∧
  (∀ (i : nat) (d : WiFiDevice),
     prev !! i = Some d →
     ∃ d', registerDevice new prev !! i = Some d' ∧
           withRssi d' None = withRssi d None) ∧
  (∀ (i : nat) (d' : WiFiDevice),
     registerDevice new prev !! i = Some d' → (length prev ≤ i)%nat →
     d' = new).
Proof.
  destruct (registerDevice_cases new prev)
    as [(k & old & Hold & _ & _ & E)|[_ E]]; rewrite E.
  - rewrite length_insert. split; [lia|]. split.
    + intros i d Hd. destruct (decide (k = i)) as [->|Hne].
      * exists (withRssi old (rssi new)).
        rewrite list_lookup_insert_eq by (by eapply lookup_lt_Some).
        split; [done|]. by replace d with old by congruence.
      * exists d. by rewrite list_lookup_insert_ne.
    + intros i d' Hd' Hi. apply lookup_lt_Some in Hd'.
      rewrite length_insert in Hd'. lia.
  - rewrite length_app. cbn [length]. split; [lia|]. split.
    + intros i d Hd. exists d. split; [|done].
      by apply lookup_app_l_Some.
    + intros i d' Hd' Hi. rewrite lookup_app_r in Hd' by done.
      destruct (i - length prev)%nat as [|n]; cbn in Hd'; [congruence|done].
Qed.

(** X8. Handling datagrams never removes or reorders registry entries and
    never touches anything but the registry: an entry keeps its position,
    identifier, name, address, port and connection flag, every entry added
    is not connected, and the session, the sequence counter, the last-sent
    regions, the sockets, the queued callbacks and the datagrams sent are
    as before. *)
Theorem scan_only_appends (msgs : list (option Response * string))
    (st : State) :
  let st' := Spec.receive msgs st in
  (length (devices st) ≤ length (devices st'))%nat ∧
  (∀ (i : nat) (d : WiFiDevice),
     devices st !! i = Some d →
     ∃ d', devices st' !! i = Some d' ∧
           id d' = id d ∧ name d' = name d ∧ ipAddress d' = ipAddress d ∧
           port d' = port d ∧ isConnected d' = isConnected d) ∧
  (∀ (i : nat) (d' : WiFiDevice),
     devices st' !! i = Some d' → (length (devices st) ≤ i)%nat →
     isConnected d' = false) ∧
  st' = setDevices (fun _ => devices st') st.
Proof.
  cbn zeta. revert st.
  induction msgs as [|[msg sender] msgs IH]; intros st.
  - cbn. split; [done|]. split; [intros i d Hd; by exists d|]. split.
    + intros i d' Hd' Hi. apply lookup_lt_Some in Hd'. lia.
    + by destruct st.
  - cbn [Spec.receive fold_left fst snd]. fold (Spec.receive msgs).
    remember (onMessage msg sender st) as st1 eqn:Est1.
    change (fold_left _ msgs st1) with (Spec.receive msgs st1).
    destruct (IH st1) as (Hlen & Hkeep & Hnew & Hrest).
    assert (st1 = st ∨
            ∃ new, isConnected new = false ∧
                   st1 = setDevices (registerDevice new) st) as Hstep.
    { rewrite Est1. unfold onMessage. destruct msg as [r|]; [|by left].
      case_bool_decide; [|by left]. right.
      by exists (deviceOfResponse r sender). }
    clear Est1. destruct Hstep as [->|(new & Hconn & E1)]; [done|].
    destruct (registerDevice_keeps new (devices st)) as (L1 & K1 & N1).
    assert (devices st1 = registerDevice new (devices st)) as Ed
      by (by rewrite E1).
    rewrite <- Ed in L1, K1, N1.
    split; [lia|]. split; [|split].
    + intros i d Hd. destruct (K1 i d Hd) as (d1 & Hd1 & Hsame).
      destruct (Hkeep i d1 Hd1) as (d' & Hd' & ? & ? & ? & ? & ?).
      exists d'. split; [done|].
      destruct d, d1. cbn in *. injection Hsame as -> -> -> -> ->.
      by repeat split.
    + intros i d' Hd' Hi.
      destruct (decide (length (devices st1) ≤ i)%nat) as [Hge|Hlt].
      * by apply (Hnew i).
      * destruct (lookup_lt_is_Some_2 (devices st1) i ltac:(lia)) as [d1 Hd1].
        rewrite (N1 i d1 Hd1 Hi) in Hd1.
        destruct (Hkeep i new Hd1) as (d2 & Hd2 & _ & _ & _ & _ & Hc).
        congruence.
    + rewrite Hrest at 1. rewrite E1. by destruct st.
Qed.

End RegistryGrowth.

(** ** Properties of every reachable state *)

Section Lifetime.

Import JS WiFi.

Lemma step_moves (env : Env) (t : Z) (e : Event) (st st' : State) :
  step env t e st = Some st' →
  clock st ≤ t ∧ Spec.Moves env t (setClock t st) st'.
Proof.
  unfold step.
  destruct ((clock st <=? t) && noneOverdue t st) eqn:G; cbn [negb]; [|done].
  apply andb_true_iff in G as [Hclock _]. intros H. split; [lia|].
  revert H. generalize (setClock t st). clear st Hclock. intros st.
  destruct e as [| |device| |color outcome|colors outcome|socket msg address|h].
  1-6: intros [= <-]; constructor.
  - destruct (socketListening socket st) eqn:L; [|done].
    intros [= <-]. by econstructor.
  - destruct (find _ _) as [u|] eqn:F; [|done].
    destruct (due u =? t) eqn:D; [|done]. intros [= <-].
    apply find_some in F as [F _]. apply list_elem_of_In in F.
    constructor; [done|lia].
Qed.

(** A property that holds initially and that every move preserves holds of
    every reachable state. *)
Lemma reachable_ind (env : Env) (I : State → Prop) :
  I initial →
  (∀ t st, I st → I (setClock t st)) →
  (∀ t st st', Spec.reachableOk st → I st → Spec.Moves env t st st' → I st') →
  ∀ trace st, run env trace initial = Some st → I st.
Proof.
  intros H0 Hclock Hmove trace.
  assert (∀ st0 st, Spec.reachableOk st0 → I st0 →
                    run env trace st0 = Some st → I st) as G.
  { induction trace as [|[t e] trace IH]; intros st0 st Hok Hi; cbn [run].
    - by intros [= <-].
    - destruct (step env t e st0) as [st1|] eqn:E; [|done].
      pose proof (step_ok env t e st0 st1 Hok E) as Hok1.
      apply IH; [done|].
      destruct (step_moves env t e st0 st1 E) as [Hle Hm].
      apply (Hmove t (setClock t st0) st1); [|by apply Hclock|done].
      destruct Hok as [Ht Hs]. split; [|done].
      unfold Spec.timersOk in *. cbn.
      unfold step in E.
      destruct ((clock st0 <=? t) && noneOverdue t st0) eqn:G; [|done].
      apply andb_true_iff in G as [_ Hdue]. unfold noneOverdue in Hdue.
      rewrite forallb_forall in Hdue. rewrite Forall_forall in Ht.
      apply Forall_forall. intros u Hu. destruct (Ht u Hu) as (_ & ? & ?).
      repeat split; [|done..].
      apply list_elem_of_In, Hdue in Hu. lia. }
  intros st. apply G; [|done].
  split; [constructor|]. cbn. lia.
Qed.

End Lifetime.

Section SequenceLifetime.

Import JS WiFi.

Lemma handlers_sent (env : Env) (st : State) :
  sent (startScan env st) = sent st ∧
  sent (stopScan st) = sent st ∧
  (∀ device, sent (connectDevice env device st) = sent st) ∧
  sent (disconnectDevice env st) = sent st ∧
  (∀ msg address, sent (onMessage msg address st) = sent st).
Proof.
  split; [|split; [done|split; [|split]]].
  - unfold startScan, mockScan.
    by destruct (is_web (OS env)), (udpModule env),
         (requestWiFiPermissions env).
  - intros device. unfold connectDevice.
    by destruct (is_web (OS env)), (udpModule env).
  - unfold disconnectDevice.
    destruct (udpSocket st), (is_web (OS env)); cbn;
      by destruct (connectedDevice st).
  - intros msg address. unfold onMessage.
    destruct msg; [|done]. by case_bool_decide.
Qed.

Lemma discovery_not_frame (socket : nat) (st : State) :
  sent (sendDiscovery socket st)
  = sent st ++ [mkDatagram socket (Buffer.from_string DISCOVERY_MESSAGE)
                  BROADCAST_PORT "255.255.255.255" Delivered] ∧
  Spec.isFrame (mkDatagram socket (Buffer.from_string DISCOVERY_MESSAGE)
                  BROADCAST_PORT "255.255.255.255" Delivered) = false.
Proof. done. Qed.

(** What a move adds to the log: datagrams that are not frames, with the
    counter unchanged, or one frame that carries the next number. *)
Lemma move_log (env : Env) (t : Z) (st st' : State) :
  Spec.Moves env t st st' →
  (seqRef st' = seqRef st ∧
   ∃ extra, sent st' = sent st ++ extra ∧
            Forall (fun d => Spec.isFrame d = false) extra)
  ∨
  (∃ d, sent st' = sent st ++ [d] ∧ Spec.isFrame d = true ∧
        Spec.sequenceOf d = (seqRef st + 1) `mod` 65536 ∧
        seqRef st' = (seqRef st + 1) `mod` 65536).
Proof.
  destruct (handlers_sent env st) as (T1 & T2 & T3 & T4 & T5).
  destruct (handlers_seqRef env st) as (S1 & S2 & S3 & S4 & S5 & S6).
  assert (∀ s, s = sent st → ∃ extra : list Datagram,
            s = sent st ++ extra ∧
            Forall (fun d => Spec.isFrame d = false) extra) as Same.
  { intros s ->. exists nil. by rewrite app_nil_r. }
  intros [| |device| |color outcome|colors outcome|socket msg address Hl
          |u Hu Hdue].
  - left. by split; [|apply Same].
  - left. by split; [|apply Same].
  - left. by split; [|apply Same].
  - left. by split; [|apply Same].
  - left. split; [done|].
    destruct (connectedDevice st) as [device|] eqn:Hdev;
      [destruct (is_web (OS env)) eqn:Hweb;
       [|destruct (udpSocket st) as [socket|] eqn:Hsock]|].
    2: { rewrite (sendColor_connected env color outcome st device socket)
           by done.
         cbn [sent setSent]. eexists. split; [done|].
         constructor; [|constructor].
         pose proof (rgb_length color) as L. unfold Spec.isFrame. cbn.
         by destruct (Spec.rgb color). }
    all: apply Same; unfold sendColor; by rewrite Hdev, ?Hweb, ?Hsock.
  - destruct (connectedDevice st) as [device|] eqn:Hdev;
      [destruct (is_web (OS env)) eqn:Hweb;
       [|destruct (udpSocket st) as [socket|] eqn:Hsock]|].
    2: { right.
         rewrite (sendRegionColors_connected env _ colors outcome st device
                    socket) by done.
         eexists. split; [done|]. split; [done|]. split; [|done].
         apply sequenceOf_frame. }
    all: left;
      destruct (sendRegionColors_no_session env (epoch env + t) colors outcome
                  st) as [E1 E2]; [tauto|];
      split; [done|]; by apply Same.
  - left. by split; [|apply Same].
  - left.
    destruct (handlers_seqRef env (setPending (requeue u (pending st)) st))
      as (_ & _ & _ & _ & _ & R).
    rewrite R. split; [done|].
    destruct (task u) as [|s|s|i s|s d]; cbn [runTask].
    + by apply Same.
    + unfold setInterval, setTimeout, schedule. cbn.
      eexists [_]. split; [done|]. by repeat constructor.
    + eexists [_]. split; [done|]. by repeat constructor.
    + by apply Same.
    + by apply Same.
Qed.

(** X9. Over the whole life of the provider the colour-update frames are
    numbered without a gap: the k-th frame ever handed to a socket carries
    k modulo 65536, and the counter equals the number of frames sent so
    far modulo 65536, whatever scans, legacy colour packets, disconnects
    and connects to other devices happen in between. *)
Theorem frames_numbered (env : Env) (trace : list (Z * Event)) (st : State) :
  run env trace initial = Some st →
  map Spec.sequenceOf (Spec.framesOf st)
  = map (fun k => Z.of_nat k `mod` 65536)
      (seq 1 (length (Spec.framesOf st))) ∧
  seqRef st = Z.of_nat (length (Spec.framesOf st)) `mod` 65536.
Proof.
  revert trace st. apply reachable_ind.
  - done.
  - done.
  - intros t st st' _ [Hmap Hseq] Hm. unfold Spec.framesOf in *.
    destruct (move_log env t st st' Hm)
      as [(E & extra & -> & Hextra)|(d & -> & Hd & Hsq & E)];
      rewrite List.filter_app.
    + assert (List.filter Spec.isFrame extra = []) as ->.
      { clear -Hextra. induction Hextra as [|d extra Hd _ IH]; [done|].
        cbn. by rewrite Hd. }
      rewrite app_nil_r. by rewrite E.
    + cbn [List.filter]. rewrite Hd.
      rewrite length_app, Nat.add_1_r, seq_S, !map_app, Hmap.
      cbn [length map]. rewrite Hsq, E, Hseq, Zplus_mod_idemp_l.
      split; f_equal; [f_equal|]; f_equal; lia.
Qed.

Lemma frames_numbered_witness :
  map Spec.sequenceOf (Spec.framesOf Demo.afterTwoSessions)
  = map (fun k => Z.of_nat k `mod` 65536)
      (seq 1 (length (Spec.framesOf Demo.afterTwoSessions))).
Proof.
  assert (run Demo.native Demo.twoSessions initial
          = Some Demo.afterTwoSessions) as Hrun by (vm_compute; reflexivity).
  exact (proj1 (frames_numbered Demo.native Demo.twoSessions
                  Demo.afterTwoSessions Hrun)).
Defined.

End SequenceLifetime.

Section SessionLifetime.

Import JS WiFi.

(** The seven parts of the invariant, in order. *)
Ltac parts :=
  refine (conj _ (conj _ (conj _ (conj _ (conj _ (conj _ _)))))); cbn.

Lemma sessionOk_sockets (env : Env) (st : State) (ss : list Socket) :
  (∀ s k, sockets st !! s = Some k → isOpen k = true → listening k = false →
          ss !! s = Some k) →
  (∀ s o, sockets st !! s = Some (mkSocket o true) →
          ∃ o', ss !! s = Some (mkSocket o' true)) →
  Spec.sessionOk env st → Spec.sessionOk env (setSockets ss st).
Proof.
  intros Hkeep Hscan (S1 & S2 & S3 & S4 & S5 & S6 & S7).
  repeat split; cbn; try done.
  - intros s Hs. by apply Hkeep; [apply S1|..].
  - eapply Forall_impl; [exact S2|]. intros u Hu s Hs.
    destruct (Hu s Hs) as [o Ho]. by eapply Hscan.
  - eapply Forall_impl; [exact S3|]. intros u Hu s Hs.
    destruct (Hu s Hs) as (? & ? & ?). repeat split; try done.
    by apply Hkeep.
  - by apply S5.
  - by apply S5.
  - by apply S6.
  - by apply S6.
Qed.

Lemma sessionOk_schedule (env : Env) (delay : Z) (k : Task) (st : State) :
  (∀ s, k = ScanBound s ∨ k = SendDiscovery s ∨ (∃ i, k = ScanTimeout i s) →
        ∃ o, sockets st !! s = Some (mkSocket o true)) →
  (∀ s d, k ≠ ConnectBound s d) →
  ∀ per, Spec.sessionOk env st →
         Spec.sessionOk env (snd (schedule delay per k st)).
Proof.
  intros Hscan Hconn per (S1 & S2 & S3 & S4 & S5 & S6 & S7).
  assert (Spec.connectSocket (mkTimer (nextTimer st) (clock st + delay) per k)
          = None) as Hnone.
  { unfold Spec.connectSocket. cbn. destruct k; try done.
    by destruct (Hconn socket device). }
  unfold schedule. repeat split; cbn; try done.
  - apply Forall_app. split; [done|]. constructor; [|done].
    intros s Hs. apply Hscan. unfold Spec.scanSocket in Hs. cbn in Hs.
    destruct k; try done; injection Hs as ->; eauto.
  - apply Forall_app. split; [done|]. constructor; [|done].
    intros s Hs. by rewrite Hnone in Hs.
  - rewrite omap_app. cbn. rewrite Hnone, app_nil_r. done.
  - by apply S5.
  - rewrite omap_app. cbn. rewrite Hnone, app_nil_r. by apply S5.
  - by apply S6.
  - by apply S6.
Qed.

Lemma omap_filter_sublist {A B} (f : A → option B) (P : A → Prop)
    `{Hdec : !∀ x, Decision (P x)} (l : list A) :
  omap f (filter P l) `sublist_of` omap f l.
Proof.
  induction l as [|x l IH]; [done|].
  rewrite filter_cons. cbn [omap].
  destruct (decide (P x)); cbn [omap list_omap]; destruct (f x);
    try (by constructor); done.
Qed.

Lemma fired_socket_gone (l : list Timer) (u : Timer) (s : nat) :
  u ∈ l → Spec.connectSocket u = Some s → NoDup (omap Spec.connectSocket l) →
  s ∉ omap Spec.connectSocket (filter (fun v => timerId v ≠ timerId u) l).
Proof.
  intros Hu Hs Hnd.
  apply list_elem_of_split in Hu as (l1 & l2 & ->).
  rewrite omap_app in Hnd. cbn in Hnd. rewrite Hs in Hnd.
  apply NoDup_app in Hnd as (_ & H1 & H2). apply NoDup_cons in H2 as [H2 _].
  rewrite filter_app, filter_cons, decide_False by (by intros []).
  rewrite omap_app, elem_of_app. intros [H|H].
  - apply (H1 s); [|apply list_elem_of_here].
    eapply elem_of_sublist; [done|apply omap_filter_sublist].
  - apply H2. eapply elem_of_sublist; [done|apply omap_filter_sublist].
Qed.

Lemma omap_cons {A B} (f : A → option B) (x : A) (l : list A) :
  omap f (x :: l) = match f x with Some y => y :: omap f l | None => omap f l end.
Proof. done. Qed.

Lemma omap_reschedule (u : Timer) (p : Z) (l : list Timer) :
  omap Spec.connectSocket
    (map (fun v => if Nat.eqb (timerId v) (timerId u)
                   then mkTimer (timerId v) (due v + p) (period v) (task v)
                   else v) l)
  = omap Spec.connectSocket l.
Proof.
  induction l as [|v l IH]; [done|].
  cbn [map]. rewrite !omap_cons, IH.
  by destruct (Nat.eqb (timerId v) (timerId u)).
Qed.

Lemma sessionOk_requeue (env : Env) (u : Timer) (st : State) :
  Spec.sessionOk env st →
  Spec.sessionOk env (setPending (requeue u (pending st)) st).
Proof.
  intros (S1 & S2 & S3 & S4 & S5 & S6 & S7). unfold requeue.
  destruct (period u) as [p|].
  - pose proof (omap_reschedule u p (pending st)) as Eo.
    repeat split; cbn; try done.
    + apply Forall_forall. intros v Hv.
      apply list_elem_of_fmap in Hv as (w & -> & Hw).
      rewrite Forall_forall in S2. specialize (S2 w Hw).
      by destruct (Nat.eqb (timerId w) (timerId u)).
    + apply Forall_forall. intros v Hv.
      apply list_elem_of_fmap in Hv as (w & -> & Hw).
      rewrite Forall_forall in S3. specialize (S3 w Hw).
      by destruct (Nat.eqb (timerId w) (timerId u)).
    + by rewrite Eo.
    + by apply S5.
    + rewrite Eo. by apply S5.
    + by apply S6.
    + by apply S6.
  - repeat split; cbn; try done.
    + apply Forall_forall. intros v Hv.
      apply list_elem_of_filter in Hv as [_ Hv].
      rewrite Forall_forall in S2. by apply S2.
    + apply Forall_forall. intros v Hv.
      apply list_elem_of_filter in Hv as [_ Hv].
      rewrite Forall_forall in S3. by apply S3.
    + apply (sublist_NoDup _ (omap Spec.connectSocket (pending st)));
        [done|apply omap_filter_sublist].
    + by apply S5.
    + destruct (S5 ltac:(done)) as [_ E].
      pose proof (omap_filter_sublist Spec.connectSocket
                    (fun v => timerId v ≠ timerId u) (pending st)) as Hs.
      rewrite E in Hs. by apply sublist_nil_r in Hs.
    + by apply S6.
    + by apply S6.
Qed.

Lemma sessionOk_same (env : Env) (st st' : State) :
  connectedDevice st' = connectedDevice st → udpSocket st' = udpSocket st →
  sockets st' = sockets st → pending st' = pending st →
  length (lastRegionsRef st') = 4%nat →
  Spec.sessionOk env st → Spec.sessionOk env st'.
Proof.
  intros E1 E2 E3 E4 E5 (S1 & S2 & S3 & S4 & S5 & S6 & S7).
  unfold Spec.sessionOk. rewrite E1, E2, E3, E4.
  repeat split; try done; first [by apply S5|by apply S6].
Qed.

Lemma sendRegionColors_fields (env : Env) (now : Z) (colors : Colors.t)
    (outcome : SendOutcome) (st : State) :
  let st' := sendRegionColors env now colors outcome st in
  connectedDevice st' = connectedDevice st ∧ udpSocket st' = udpSocket st ∧
  sockets st' = sockets st ∧ pending st' = pending st ∧
  (length (lastRegionsRef st) = 4%nat → length (lastRegionsRef st') = 4%nat).
Proof.
  cbn zeta. unfold sendRegionColors.
  destruct (connectedDevice st) eqn:Hd; [|done].
  destruct (is_web (OS env)); [done|]. cbn [udpSocket setLastRegionsRef].
  destruct (udpSocket st) eqn:Hs; [|done].
  by destruct (encodeHeader _ _ _ _).
Qed.

Lemma sendColor_fields (env : Env) (color : string) (outcome : SendOutcome)
    (st : State) :
  let st' := sendColor env color outcome st in
  connectedDevice st' = connectedDevice st ∧ udpSocket st' = udpSocket st ∧
  sockets st' = sockets st ∧ pending st' = pending st ∧
  lastRegionsRef st' = lastRegionsRef st.
Proof.
  cbn zeta. unfold sendColor.
  destruct (connectedDevice st) eqn:Hd; [|done].
  destruct (is_web (OS env)); [done|]. by destruct (udpSocket st) eqn:Hs.
Qed.

(** A fresh socket is none of the sockets the invariant speaks of. *)
Lemma sessionOk_fresh (env : Env) (st : State) :
  Spec.sessionOk env st →
  udpSocket st ≠ Some (length (sockets st)) ∧
  length (sockets st) ∉ omap Spec.connectSocket (pending st).
Proof.
  intros (S1 & _ & S3 & _). split.
  - intros H. apply S1 in H. apply lookup_lt_Some in H. lia.
  - intros H. apply list_elem_of_omap in H as (u & Hu & Hs).
    rewrite Forall_forall in S3. destruct (S3 u Hu _ Hs) as (_ & H & _).
    apply lookup_lt_Some in H. lia.
Qed.

Lemma startScan_sessionOk (env : Env) (st : State) :
  Spec.sessionOk env st → Spec.sessionOk env (startScan env st).
Proof.
  intros H. unfold startScan, mockScan, setTimeout.
  assert (∀ st0, Spec.sessionOk env st0 →
                 Spec.sessionOk env (snd (schedule 1500 None MockLoad st0)))
    as Hmock.
  { intros st0. apply sessionOk_schedule; [|done].
    intros s [?|[?|[? ?]]]; done. }
  assert (Spec.sessionOk env (setDevices (fun _ => []) (setIsScanning true st)))
    as H0
    by (apply (sessionOk_same env st); [done..| |done];
        by destruct H as (_ & _ & _ & _ & _ & _ & ?)).
  destruct (is_web (OS env)); [by apply Hmock|].
  destruct (udpModule env); cbn [negb]; [|by apply Hmock].
  destruct (requestWiFiPermissions env); cbn [negb]; [|done].
  set (st0 := setDevices (fun _ => []) (setIsScanning true st)) in *.
  cbn [createSocket].
  set (n := length (sockets st0)).
  set (ss := alter (fun k => mkSocket (isOpen k) true) n
               (sockets st0 ++ [mkSocket true false])).
  assert (listen n (snd (schedule 0 None (ScanBound n)
                           (setSockets (sockets st0 ++ [mkSocket true false])
                              st0)))
          = snd (schedule 0 None (ScanBound n) (setSockets ss st0))) as ->
    by done.
  assert (ss !! n = Some (mkSocket true true)) as Hn.
  { unfold ss. rewrite list_lookup_alter_eq, lookup_app_r by (unfold n; lia).
    by rewrite Nat.sub_diag. }
  assert (∀ s k, sockets st0 !! s = Some k → ss !! s = Some k) as Hold.
  { intros s k Hs. unfold ss.
    rewrite list_lookup_alter_ne
      by (apply lookup_lt_Some in Hs; unfold n; lia).
    by apply lookup_app_l_Some. }
  apply sessionOk_schedule.
  - intros s [[= <-]|[?|[? ?]]]; [|done..]. by exists true.
  - done.
  - apply sessionOk_sockets; [|by eauto|done].
    intros s k Hs _ _. by apply Hold.
Qed.

Lemma connectDevice_sessionOk (env : Env) (device : WiFiDevice) (st : State) :
  Spec.sessionOk env st → Spec.sessionOk env (connectDevice env device st).
Proof.
  intros H. unfold connectDevice.
  destruct (is_web (OS env)) eqn:Hweb.
  - destruct H as (S1 & S2 & S3 & S4 & S5 & S6 & S7).
    parts; try done. (intros Hw; congruence).
  - destruct (udpModule env); cbn [negb]; [|done].
    destruct (sessionOk_fresh env st H) as [F1 F2].
    destruct H as (S1 & S2 & S3 & S4 & S5 & S6 & S7).
    assert (∀ s k, sockets st !! s = Some k →
                   (sockets st ++ [mkSocket true false]) !! s = Some k)
      as Hold by (intros s k; apply lookup_app_l_Some).
    unfold createSocket, schedule. parts.
    + intros s Hs. by apply Hold, S1.
    + apply Forall_app. split; [|by repeat constructor].
      eapply Forall_impl; [exact S2|]. intros u Hu s Hs.
      destruct (Hu s Hs) as [o Ho]. exists o. by apply Hold.
    + apply Forall_app. split.
      * eapply Forall_impl; [exact S3|]. intros u Hu s Hs.
        destruct (Hu s Hs) as (? & ? & ?). repeat split; try done.
        by apply Hold.
      * constructor; [|done]. intros s [= <-]. repeat split; [|done].
        by rewrite lookup_app_r, Nat.sub_diag by lia.
    + rewrite omap_app. cbn. apply NoDup_app. split; [done|]. split.
      * intros s Hs1 Hs2. apply list_elem_of_singleton in Hs2. by subst s.
      * apply NoDup_singleton.
    + (intros Hw; congruence).
    + done.
    + done.
Qed.

Lemma disconnectDevice_sessionOk (env : Env) (st : State) :
  Spec.sessionOk env st → Spec.sessionOk env (disconnectDevice env st).
Proof.
  unfold Spec.sessionOk, disconnectDevice.
  destruct st as [ds cd sc us sq lr ss ck pd nt sn]. cbn.
  intros (S1 & S2 & S3 & S4 & S5 & S6 & S7).
  destruct (is_web (OS env)) eqn:Hweb.
  - destruct (S5 eq_refl) as [-> E]. cbn.
    destruct cd; parts; try done; (intros Hw; congruence).
  - destruct us as [s|]; cbn.
    + assert (∀ s' k, s' ≠ s → ss !! s' = Some k →
                      alter (fun k => mkSocket false (listening k)) s ss !! s'
                      = Some k) as Hold.
      { intros s' k Hne Hk. by rewrite list_lookup_alter_ne. }
      pose proof (S1 s eq_refl) as Hsock.
      assert (Forall
                (fun u => ∀ s0, Spec.scanSocket u = Some s0 →
                   ∃ o, alter (fun k => mkSocket false (listening k)) s ss
                        !! s0 = Some (mkSocket o true)) pd) as T2.
      { eapply Forall_impl; [exact S2|]. intros u Hu s' Hs'.
        destruct (Hu s' Hs') as [o Ho].
        destruct (decide (s' = s)) as [->|Hne]; [congruence|].
        exists o. by apply Hold. }
      assert (Forall
                (fun u => ∀ s0, Spec.connectSocket u = Some s0 →
                   period u = None ∧
                   alter (fun k => mkSocket false (listening k)) s ss !! s0
                   = Some (mkSocket true false) ∧
                   None ≠ Some s0) pd) as T3.
      { eapply Forall_impl; [exact S3|]. intros u Hu s' Hs'.
        destruct (Hu s' Hs') as (? & ? & Hne).
        repeat split; try done. apply Hold; [congruence|done]. }
      destruct cd; parts; try done; (intros Hw; congruence).
    + destruct (S6 eq_refl) as [_ Hnone]. rewrite (Hnone eq_refl).
      parts; done.
Qed.

Lemma sessionOk_filter (env : Env) (P : Timer → Prop)
    `{Hdec : !∀ u, Decision (P u)} (st : State) :
  Spec.sessionOk env st →
  Spec.sessionOk env (setPending (filter P (pending st)) st).
Proof.
  intros (S1 & S2 & S3 & S4 & S5 & S6 & S7). parts; try done.
  - apply Forall_forall. intros v Hv.
    apply list_elem_of_filter in Hv as [_ Hv].
    rewrite Forall_forall in S2. by apply S2.
  - apply Forall_forall. intros v Hv.
    apply list_elem_of_filter in Hv as [_ Hv].
    rewrite Forall_forall in S3. by apply S3.
  - apply (sublist_NoDup _ (omap Spec.connectSocket (pending st)));
      [done|apply omap_filter_sublist].
  - intros Hw. destruct (S5 Hw) as [U E]. split; [done|].
    pose proof (omap_filter_sublist Spec.connectSocket P (pending st)) as Hs.
    rewrite E in Hs. by apply sublist_nil_r in Hs.
Qed.

Lemma runTask_sessionOk (env : Env) (u : Timer) (st : State) :
  u ∈ pending st → Spec.sessionOk env st →
  Spec.sessionOk env (runTask (task u) (setPending (requeue u (pending st)) st)).
Proof.
  intros Hu H.
  pose proof (sessionOk_requeue env u st H) as H1.
  destruct H as (S1 & S2 & S3 & S4 & S5 & S6 & S7).
  rewrite Forall_forall in S2, S3.
  pose proof (S2 u Hu) as U2. pose proof (S3 u Hu) as U3.
  unfold Spec.scanSocket in U2. unfold Spec.connectSocket in U3.
  set (st1 := setPending (requeue u (pending st)) st) in *.
  assert (sockets st1 = sockets st) as Ess by done.
  destruct (task u) as [|s|s|i s|s d] eqn:Etask; cbn [runTask].
  - by apply (sessionOk_same env st1); [..|apply H1|].
  - destruct (U2 s eq_refl) as [o Ho].
    unfold setInterval, setTimeout.
    assert (Spec.sessionOk env (sendDiscovery s st1)) as H2
      by (by apply (sessionOk_same env st1); [..|apply H1|]).
    pose proof (sessionOk_schedule env 3000 (SendDiscovery s)
                  (sendDiscovery s st1)) as H3.
    specialize (H3 ltac:(intros s' [?|[[= <-]|[? ?]]]; [done|by exists o|done])
                   ltac:(done) (Some 3000) H2).
    destruct (schedule 3000 (Some 3000) (SendDiscovery s) (sendDiscovery s st1))
      as [interval st2] eqn:E2.
    cbn [snd] in H3.
    apply sessionOk_schedule; [|done|done].
    intros s' [?|[?|[i [= _ <-]]]]; [done..|].
    exists o. replace (sockets st2) with (sockets st); [done|].
    unfold schedule in E2. by injection E2 as _ <-.
  - by apply (sessionOk_same env st1); [..|apply H1|].
  - destruct (U2 s eq_refl) as [o Ho].
    apply (sessionOk_same env (closeSocket s (clearInterval i st1)));
      [done..| |].
    + by destruct H1 as (_ & _ & _ & _ & _ & _ & ?).
    + unfold closeSocket. apply sessionOk_sockets.
      * intros s' k Hk Hopen Hlisten.
        rewrite list_lookup_alter_ne; [done|].
        intros <-. cbn in Hk. rewrite Ho in Hk. injection Hk as <-. done.
      * intros s' o' Hk. destruct (decide (s = s')) as [<-|Hne].
        -- rewrite list_lookup_alter_eq, Hk. by eexists.
        -- rewrite list_lookup_alter_ne by done. by eexists.
      * by apply sessionOk_filter.
  - destruct (U3 s eq_refl) as (Hper & Hsock & Hne).
    assert (is_web (OS env) = false) as Hweb.
    { destruct (is_web (OS env)) eqn:Hweb; [|done].
      destruct (S5 eq_refl) as [_ E].
      assert (s ∈ omap Spec.connectSocket (pending st)) as Hin.
      { apply list_elem_of_omap. exists u. split; [done|].
        unfold Spec.connectSocket. by rewrite Etask. }
      rewrite E in Hin. by apply elem_of_nil in Hin. }
    assert (s ∉ omap Spec.connectSocket (pending st1)) as Hgone.
    { unfold st1, requeue. rewrite Hper. cbn.
      apply fired_socket_gone; [done| |done].
      unfold Spec.connectSocket. by rewrite Etask. }
    destruct H1 as (T1 & T2 & T3 & T4 & T5 & T6 & T7).
    parts; try done.
    + by intros s0 [= <-].
    + apply Forall_forall. intros v Hv s' Hs'.
      rewrite Forall_forall in T3. destruct (T3 v Hv s' Hs') as (? & ? & ?).
      repeat split; try done. intros [= ->]. apply Hgone.
      apply list_elem_of_omap. by exists v.
    + intros Hw. congruence.
Qed.

Lemma move_sessionOk (env : Env) (t : Z) (st st' : State) :
  Spec.Moves env t st st' → Spec.sessionOk env st → Spec.sessionOk env st'.
Proof.
  intros [| |device| |color outcome|colors outcome|socket msg address Hl
          |u Hu Hdue] H.
  - by apply startScan_sessionOk.
  - by apply (sessionOk_same env st); [..|apply H|].
  - by apply connectDevice_sessionOk.
  - by apply disconnectDevice_sessionOk.
  - destruct (sendColor_fields env color outcome st) as (? & ? & ? & ? & E).
    apply (sessionOk_same env st); try done. rewrite E. apply H.
  - destruct (sendRegionColors_fields env (epoch env + t) colors outcome st)
      as (? & ? & ? & ? & E).
    apply (sessionOk_same env st); try done. apply E, H.
  - unfold onMessage. destruct msg; [|done]. case_bool_decide; [|done].
    by apply (sessionOk_same env st); [..|apply H|].
  - by apply runTask_sessionOk.
Qed.

(** X10. In every state the provider can reach, the session is in order:
    off the web build a device is connected exactly when a socket is held,
    and that socket is open, since neither the end of a scan nor anything
    else closes it behind the session; the web build never holds a socket;
    and the last-sent regions always number four. So with a device
    connected off the web build, [sendRegionColors] always reaches the
    encoder. *)
Theorem session_in_order (env : Env) (trace : list (Z * Event)) (st : State) :
  run env trace initial = Some st →
  (is_web (OS env) = true → udpSocket st = None) ∧
  (is_web (OS env) = false →
   (connectedDevice st = None ↔ udpSocket st = None)) ∧
  (∀ s, udpSocket st = Some s → socketOpen s st = true) ∧
  length (lastRegionsRef st) = 4%nat ∧
  (∀ device, is_web (OS env) = false → connectedDevice st = Some device →
             ∃ socket, Spec.Connected env st device socket).
Proof.
  intros Hrun.
  assert (Spec.sessionOk env st) as (S1 & S2 & S3 & S4 & S5 & S6 & S7).
  { revert trace st Hrun. apply reachable_ind.
    - unfold Spec.sessionOk. cbn. repeat split; try done; constructor.
    - intros t st H. by apply (sessionOk_same env st); [..|apply H|].
    - intros t st st' _ H Hm. by apply (move_sessionOk env t st). }
  split; [intros Hw; by apply S5|]. split; [done|]. split; [|split; [done|]].
  - intros s Hs. unfold socketOpen. by rewrite (S1 s Hs).
  - intros device Hweb Hdev.
    destruct (udpSocket st) as [socket|] eqn:Hs.
    + by exists socket.
    + destruct (S6 Hweb) as [_ Hnone]. rewrite (Hnone eq_refl) in Hdev. done.
Qed.

Lemma session_in_order_witness :
  ∃ socket,
    Spec.Connected Demo.native Demo.afterTwoSessions
      (withConnected Demo.deviceB true) socket.
Proof.
  assert (run Demo.native Demo.twoSessions initial
          = Some Demo.afterTwoSessions) as Hrun by (vm_compute; reflexivity).
  destruct (session_in_order Demo.native Demo.twoSessions
              Demo.afterTwoSessions Hrun) as (_ & _ & _ & _ & H).
  apply H; reflexivity.
Defined.

End SessionLifetime.

(** ** Further properties of the encoder and of scans *)

Section Encoder.

Import JS WiFi.

(** X11. A full frame is 21 bytes long and a delta frame with n changed
    regions 10 + 4 n bytes: 14 and 18 bytes for one and two regions, but 22
    bytes for three, one byte more than the full frame the same colours
    would take. *)
Theorem frame_sizes (env : Env) (now : Z) (colors : Colors.t)
    (outcome : SendOutcome) (st : State) (device : WiFiDevice) (socket : nat) :
  Spec.Connected env st device socket →
  let n := length (Spec.changedRegions (Spec.regionsOf colors)
                     (lastRegionsRef st)) in
  ∃ frame,
    sent (sendRegionColors env now colors outcome st) = sent st ++ [frame] ∧
    length (dgBytes frame)
    = (if bool_decide (n = 1 ∨ n = 2 ∨ n = 3)%nat then 10 + 4 * n else 21)%nat ∧
    (length (dgBytes frame) < 21 ↔ n = 1 ∨ n = 2)%nat ∧
    (length (dgBytes frame) = 22 ↔ n = 3)%nat.
Proof.
  intros HC. cbn zeta.
  rewrite (sendRegionColors_connected env now colors outcome st device socket HC).
  pose proof (changedRegions_length (Spec.regionsOf colors) (lastRegionsRef st))
    as Hn.
  set (changed := Spec.changedRegions (Spec.regionsOf colors)
                    (lastRegionsRef st)) in *.
  eexists. split; [reflexivity|]. cbn [dgBytes].
  assert (bool_decide (0 < length changed < 4)%nat
          = bool_decide (length changed = 1 ∨ length changed = 2
                         ∨ length changed = 3)%nat)
    as -> by (apply bool_decide_ext; lia).
  rewrite length_app.
  change (length (Spec.header _ _ _)) with 8%nat.
  case_bool_decide as Hd.
  - rewrite delta_length. lia.
  - rewrite full_length by done. lia.
Qed.

Lemma frame_sizes_witness :
  ∃ frame,
    sent (sendRegionColors Demo.native 1700000000020 Demo.sample2 Delivered
            Demo.streamedA)
    = sent Demo.streamedA ++ [frame] ∧
    (length (dgBytes frame) < 21)%nat.
Proof.
  destruct (frame_sizes Demo.native 1700000000020 Demo.sample2 Delivered
              Demo.streamedA (withConnected Demo.deviceA true) 0)
    as (frame & Hsent & _ & Hshort & _).
  - repeat split; reflexivity.
  - exists frame. split; [exact Hsent|]. apply Hshort. left. reflexivity.
Defined.

Lemma header_fields (flags sq ts flags' sq' ts' : Z) :
  Spec.header flags sq ts = Spec.header flags' sq' ts' →
  flags = flags' ∧ sq = sq' ∧ ts = ts'.
Proof.
  unfold Spec.header, Spec.uint16BE. cbn [app].
  intros [= -> Hs1 Hs2 Ht1 Ht2].
  pose proof (Z.div_mod sq 256 ltac:(lia)).
  pose proof (Z.div_mod sq' 256 ltac:(lia)).
  pose proof (Z.div_mod ts 256 ltac:(lia)).
  pose proof (Z.div_mod ts' 256 ltac:(lia)).
  repeat split; lia.
Qed.

(** X12. Building the header succeeds exactly when the flags fit a byte
    and the sequence number and the timestamp fit 16 bits. The eight bytes
    then do not depend on what the freshly allocated buffer held, and two
    headers are equal only if their flags, sequence numbers and timestamps
    are. *)
Theorem encodeHeader_sound (heap : nat → Z) (flags sq ts : Z) :
  (is_Some (encodeHeader heap flags sq ts) ↔
   0 ≤ flags ≤ 255 ∧ 0 ≤ sq ≤ 65535 ∧ 0 ≤ ts ≤ 65535) ∧
  ∀ h, encodeHeader heap flags sq ts = Some h →
       length h = 8%nat ∧
       (∀ heap', encodeHeader heap' flags sq ts = Some h) ∧
       (∀ heap' flags' sq' ts',
          encodeHeader heap' flags' sq' ts' = Some h →
          flags' = flags ∧ sq' = sq ∧ ts' = ts).
Proof.
  assert (is_Some (encodeHeader heap flags sq ts) →
          0 ≤ flags ≤ 255 ∧ 0 ≤ sq ≤ 65535 ∧ 0 ≤ ts ≤ 65535) as Hrange.
  { unfold encodeHeader, Buffer.writeUInt16BE, Buffer.writeUInt8.
    cbn [Buffer.allocUnsafe List.seq map length Nat.ltb Nat.leb].
    change ((0 <=? MAGIC) && (MAGIC <=? 65535)) with true.
    change ((0 <=? version) && (version <=? 255)) with true.
    cbn [andb mbind option_bind list_insert insert length Nat.ltb Nat.leb].
    destruct ((0 <=? flags) && (flags <=? 255)) eqn:Ef;
      cbn [andb mbind option_bind list_insert insert length Nat.ltb Nat.leb];
      [|by intros [? [=]]].
    destruct ((0 <=? sq) && (sq <=? 65535)) eqn:Es;
      cbn [andb mbind option_bind list_insert insert length Nat.ltb Nat.leb];
      [|by intros [? [=]]].
    destruct ((0 <=? ts) && (ts <=? 65535)) eqn:Et;
      cbn [andb mbind option_bind list_insert insert length Nat.ltb Nat.leb];
      [|by intros [? [=]]].
    intros _. lia. }
  split.
  - split; [done|]. intros (? & ? & ?).
    rewrite encodeHeader_header by lia. by eexists.
  - intros h Hh.
    destruct (Hrange (mk_is_Some _ _ Hh)) as (? & ? & ?).
    rewrite encodeHeader_header in Hh by lia. injection Hh as <-.
    split; [done|]. split.
    + intros heap'. by rewrite encodeHeader_header by lia.
    + intros heap' flags' sq' ts' H'.
      assert (is_Some (encodeHeader heap' flags' sq' ts')) as Hs by (by eexists).
      assert (0 ≤ flags' ≤ 255 ∧ 0 ≤ sq' ≤ 65535 ∧ 0 ≤ ts' ≤ 65535)
        as (? & ? & ?).
      { clear -Hs. revert Hs.
        unfold encodeHeader, Buffer.writeUInt16BE, Buffer.writeUInt8.
        cbn [Buffer.allocUnsafe List.seq map length Nat.ltb Nat.leb].
        change ((0 <=? MAGIC) && (MAGIC <=? 65535)) with true.
        change ((0 <=? version) && (version <=? 255)) with true.
        cbn [andb mbind option_bind list_insert insert length Nat.ltb Nat.leb].
        destruct ((0 <=? flags') && (flags' <=? 255)) eqn:Ef;
          cbn [andb mbind option_bind list_insert insert length Nat.ltb
               Nat.leb]; [|by intros [? [=]]].
        destruct ((0 <=? sq') && (sq' <=? 65535)) eqn:Es;
          cbn [andb mbind option_bind list_insert insert length Nat.ltb
               Nat.leb]; [|by intros [? [=]]].
        destruct ((0 <=? ts') && (ts' <=? 65535)) eqn:Et;
          cbn [andb mbind option_bind list_insert insert length Nat.ltb
               Nat.leb]; [|by intros [? [=]]].
        intros _. lia. }
      rewrite encodeHeader_header in H' by lia.
      apply header_fields. congruence.
Qed.

End Encoder.

Section Scans.

Import JS WiFi.

(** X13. Where no UDP sockets are to be had (the web build, or a runtime
    without the UDP module) a scan empties the registry and reports
    scanning at once; a second and a half later it puts the two
    placeholder devices in the registry and reports idle. It opens no
    socket, sends nothing and leaves the session alone. *)
Theorem mock_scan (env : Env) (st : State) :
  is_web (OS env) = true ∨ udpModule env = false →
  Spec.settled st →
  noneOverdue (clock st + 1500) st = true →
  ∃ st1 st2,
    step env (clock st) StartScan st = Some st1 ∧
    isScanning st1 = true ∧ devices st1 = [] ∧
    step env (clock st + 1500) (Fire (nextTimer st)) st1 = Some st2 ∧
    isScanning st2 = false ∧ devices st2 = MOCK_DEVICES ∧
    sockets st2 = sockets st ∧ sent st2 = sent st ∧
    pending st2 = pending st ∧
    connectedDevice st2 = connectedDevice st ∧ udpSocket st2 = udpSocket st.
Proof.
  intros Hmock [Hdue Hids] Hlater.
  assert (∀ s, startScan env s = mockScan s) as Escan.
  { intros s. unfold startScan. destruct (is_web (OS env)); [done|].
    destruct Hmock as [?| ->]; done. }
  pose (u := mkTimer (nextTimer st) (clock st + 1500) None MockLoad).
  pose proof (find_fresh (pending st) u Hids) as Efind.
  pose proof (requeue_fresh (pending st) u eq_refl Hids) as Equeue.
  pose proof (noneOverdue_snoc _ st u Hlater ltac:(cbn; lia)) as Edue.
  unfold step. rewrite !Escan. unfold noneOverdue in *. subst u.
  rewrite Z.leb_refl, Hdue. cbn [andb negb].
  destruct st as [ds cd sc us sq lr ss ck pd nt sn]; cbn in *.
  eexists. eexists. split; [reflexivity|]. cbn.
  split; [done|]. split; [done|].
  replace (ck <=? ck + 1500) with true by lia. rewrite Edue. cbn.
  rewrite Efind. cbn. rewrite Z.eqb_refl, Equeue.
  split; [reflexivity|]. done.
Qed.

Lemma mock_scan_witness :
  ∃ st1 st2,
    step Demo.browser 0 StartScan Demo.scanned = Some st1 ∧
    step Demo.browser 1500 (Fire 0%nat) st1 = Some st2 ∧
    devices st2 = MOCK_DEVICES.
Proof.
  destruct (mock_scan Demo.browser Demo.scanned)
    as (st1 & st2 & H1 & _ & _ & H2 & _ & H3 & _).
  - left. reflexivity.
  - split; [reflexivity|]. constructor.
  - reflexivity.
  - by exists st1, st2.
Defined.

Lemma find_none_filter (h : nat) (l : list Timer) :
  List.find (fun u => Nat.eqb (timerId u) h)
    (filter (fun t => timerId t ≠ h) l) = None.
Proof.
  apply find_absent. intros u Hu.
  apply list_elem_of_filter in Hu as [Hne _]. by apply Nat.eqb_neq.
Qed.

(** X14. When the 30-second timeout of a scan runs, the scan is over for
    good: the component reports idle, the socket of the scan is closed so
    that no datagram is handled on it any more, and the broadcast interval
    is no longer queued and can never fire again. The registry and what
    has been sent stay as they are. *)
Theorem scan_timeout_ends_scan (env : Env) (t : Z) (h interval socket : nat)
    (st st' : State) (u : Timer) :
  List.find (fun v => Nat.eqb (timerId v) h) (pending st) = Some u →
  task u = ScanTimeout interval socket →
  step env t (Fire h) st = Some st' →
  isScanning st' = false ∧
  socketOpen socket st' = false ∧
  devices st' = devices st ∧ sent st' = sent st ∧
  Forall (fun v => timerId v ≠ interval) (pending st') ∧
  (∀ t' msg address, step env t' (Message socket msg address) st' = None) ∧
  (∀ t', step env t' (Fire interval) st' = None).
Proof.
  intros Hfind Htask. unfold step.
  destruct ((clock st <=? t) && noneOverdue t st); cbn [negb]; [|done].
  cbn [pending setClock]. rewrite Hfind.
  destruct (due u =? t); [|done]. rewrite Htask. intros [= <-].
  cbn [runTask].
  set (q := filter (fun v => timerId v ≠ interval) (requeue u (pending st))).
  assert (socketOpen socket
            (setIsScanning false
               (closeSocket socket
                  (clearInterval interval
                     (setPending (requeue u (pending st)) (setClock t st)))))
          = false) as Hclosed.
  { unfold socketOpen. cbn. rewrite list_lookup_alter_eq.
    by destruct (sockets st !! socket). }
  split; [done|]. split; [done|]. split; [done|]. split; [done|].
  split; [|split].
  - cbn. apply Forall_forall. intros v Hv.
    by apply list_elem_of_filter in Hv as [? _].
  - intros t' msg address. cbn [clock pending setIsScanning closeSocket
                                 clearInterval setPending setSockets setClock].
    match goal with
    | |- (if ?c then _ else _) = None => destruct c; [done|]
    end.
    unfold socketListening. cbn. rewrite list_lookup_alter_eq.
    by destruct (sockets st !! socket).
  - intros t'. cbn [clock pending setIsScanning closeSocket
                    clearInterval setPending setSockets setClock].
    match goal with
    | |- (if ?c then _ else _) = None => destruct c; [done|]
    end.
    by rewrite find_none_filter.
Qed.

Lemma scan_timeout_ends_scan_witness :
  ∃ st',
    step Demo.native 30000 (Fire 2%nat) Demo.lateScan = Some st' ∧
    isScanning st' = false ∧ socketOpen 0 st' = false ∧
    ∀ t', step Demo.native t' (Fire 1%nat) st' = None.
Proof.
  destruct (step Demo.native 30000 (Fire 2%nat) Demo.lateScan) as [st'|] eqn:E;
    [|by vm_compute in E].
  exists st'. split; [done|].
  destruct (scan_timeout_ends_scan Demo.native 30000 2 1 0 Demo.lateScan st'
              (mkTimer 2 30000 None (ScanTimeout 1 0)))
    as (H1 & H2 & _ & _ & _ & _ & H3).
  - by vm_compute.
  - reflexivity.
  - exact E.
  - done.
Defined.

End Scans.
